(** * Screw detection API: post-detection geometry and top-k aggregation

    A shallow embedding of [backend/api.py]: the box clipper [clip_box], the
    croppers [crop_rgb] and [head_square_crop], the enhancer
    [enhance_for_cls], the classifier wrapper [classify_crop] and the
    per-detection loop of the [/predict] endpoint.

    Modelling conventions.
    - A Python [float] that is finite is a rational number, so detector
      coordinates and probabilities live in [Q]; [int(x)] on a float
      truncates toward zero and is [py_int].  Python [int]s are [Z].
    - The products [bh * 0.45] and [side * 0.05] are taken in exact rational
      arithmetic.
    - External collaborators (PIL, the two YOLO models, OpenCV,
      [np.argsort]) are parameters of the development, each with the part of
      its documented contract that the code relies on.  Decoding and the
      OpenCV operations may raise; the calls of the two models return.
    - The detector is run on the file the decoded upload was saved to, so it
      is a function of the decoded image.  Debug files, prints and
      [timing_ms] are left out. *)

From Stdlib Require Import ZArith QArith Qround Lia.
From stdpp Require Import base option list sorting gmap strings pretty.

Local Open Scope Z_scope.

(** ** Numeric conversions *)

(** [int(x)] for a finite float [x]: truncation toward zero. *)
Definition py_int (x : Q) : Z := Z.quot (Qnum x) (Z.pos (Qden x)).

(** A Python [int] used where a number is expected. *)
Definition py_num (z : Z) : Q := inject_Z z.

(** ** [clip_box] *)

Definition clip_box (x1 y1 x2 y2 : Q) (w h : Z) : Z * Z * Z * Z :=
  let x1 := Z.max 0 (Z.min (py_int x1) (w - 1)) in
  let y1 := Z.max 0 (Z.min (py_int y1) (h - 1)) in
  let x2 := Z.max 0 (Z.min (py_int x2) (w - 1)) in
  let y2 := Z.max 0 (Z.min (py_int y2) (h - 1)) in
  let x2 := if x2 <=? x1 then Z.min (w - 1) (x1 + 1) else x2 in
  let y2 := if y2 <=? y1 then Z.min (h - 1) (y1 + 1) else y2 in
  (x1, y1, x2, y2).

(** The value a coordinate has after the four clamping assignments and
    before the two degenerate-extent tests. *)
Definition clamped (v : Q) (n : Z) : Z := Z.max 0 (Z.min (py_int v) (n - 1)).

(** What [clip_box] does along one axis of length [n], on coordinates that
    are already integers; used to reason about the two axes separately. *)
Definition clip_axis (v1 v2 n : Z) : Z * Z :=
  let a := Z.max 0 (Z.min v1 (n - 1)) in
  let b := Z.max 0 (Z.min v2 (n - 1)) in
  (a, if b <=? a then Z.min (n - 1) (a + 1) else b).

(** ** Arrays and images *)

(** An 8-bit RGB pixel. *)
Definition pixel : Type := Z * Z * Z.

(** A PIL image in mode RGB. *)
Record PILImage := {
  width : Z;
  height : Z;
  getpixel : Z -> Z -> pixel   (* column, then row *)
}.

(** A [numpy] array of shape [(h, w, 3)], row-major; slices are views. *)
Record ndarray := {
  shape_h : Z;
  shape_w : Z;
  px : Z -> Z -> pixel         (* row, then column *)
}.

Definition pil_to_np (img : PILImage) : ndarray :=
  {| shape_h := height img; shape_w := width img;
     px := fun r c => getpixel img c r |}.

(** An all-black array of the given size. *)
Definition blank_image (w h : Z) : ndarray :=
  {| shape_h := h; shape_w := w; px := fun _ _ => (0, 0, 0) |}.

(** Where the bound [i] of a slice lands on an axis of length [n]. *)
Definition slice_bound (i n : Z) : Z :=
  if i <? 0 then Z.max (i + n) 0 else Z.min i n.

(** [a[y1:y2, x1:x2, :]] *)
Definition nd_slice (a : ndarray) (y1 y2 x1 x2 : Z) : ndarray :=
  let r1 := slice_bound y1 (shape_h a) in
  let r2 := slice_bound y2 (shape_h a) in
  let c1 := slice_bound x1 (shape_w a) in
  let c2 := slice_bound x2 (shape_w a) in
  {| shape_h := Z.max 0 (r2 - r1); shape_w := Z.max 0 (c2 - c1);
     px := fun r c => px a (r1 + r) (c1 + c) |}.

(** [l[:k]] on a sequence. *)
Definition py_take {A} (k : Z) (l : list A) : list A :=
  if k <? 0 then take (length l - Z.to_nat (- k)) l else take (Z.to_nat k) l.

(** ** Croppers *)

Definition crop_rgb (np_img : ndarray) (box_xyxy : Q * Q * Q * Q) : ndarray :=
  let h := shape_h np_img in
  let w := shape_w np_img in
  let '(x1, y1, x2, y2) := box_xyxy in
  let '(x1, y1, x2, y2) := clip_box x1 y1 x2 y2 w h in
  nd_slice np_img y1 y2 x1 x2.

(** Lines 99-108 of [head_square_crop]: the square built from a clipped box
    whose longer side is [side], before it is clipped again. *)
Definition head_square (x1 y1 x2 y2 side : Z) : Z * Z * Z * Z :=
  let bh := y2 - y1 in
  let cx := py_int ((py_num (x1 + x2)) / 2) in
  let cy := py_int (py_num y1 + py_num bh * 0.45) in
  let pad := py_int (py_num side * 0.05) in
  let side2 := side + 2 * pad in
  let nx1 := cx - side2 in
  let ny1 := cy - side2 in
  let nx2 := nx1 + side2 in
  let ny2 := ny1 + side2 in
  (nx1, ny1, nx2, ny2).

Definition head_square_crop (np_img : ndarray) (box_xyxy : Q * Q * Q * Q)
  : ndarray :=
  let h := shape_h np_img in
  let w := shape_w np_img in
  let '(x1, y1, x2, y2) := box_xyxy in
  let '(x1, y1, x2, y2) := clip_box x1 y1 x2 y2 w h in
  let bw := x2 - x1 in
  let bh := y2 - y1 in
  let side := Z.max bw bh in
  if side <? 2 then
    crop_rgb np_img (py_num x1, py_num y1, py_num x2, py_num y2)
  else
    let '(nx1, ny1, nx2, ny2) := head_square x1 y1 x2 y2 side in
    let '(nx1, ny1, nx2, ny2) :=
      clip_box (py_num nx1) (py_num ny1) (py_num nx2) (py_num ny2) w h in
    nd_slice np_img ny1 ny2 nx1 nx2.

(** ** Exceptions and the classifier-call log *)

(** The exceptions that matter here; [DecodeError] stands for whatever PIL
    raises on bytes that are not an image, [CvError] for [cv2.error]. *)
Inductive exn :=
  AssertionError | KeyError | IndexError | DecodeError | CvError.

Inductive outcome (A : Type) : Type :=
  | Ok (a : A)
  | Raise (e : exn).
Arguments Ok {A} a.
Arguments Raise {A} e.

Definition obind {A B} (m : outcome A) (f : A -> outcome B) : outcome B :=
  match m with
  | Ok a => f a
  | Raise e => Raise e
  end.

(** [[f x for x in l]] where [f] may raise: the first exception wins. *)
Fixpoint omap {A B} (f : A -> outcome B) (l : list A) : outcome (list B) :=
  match l with
  | [] => Ok []
  | x :: l' =>
      obind (f x) (fun y => obind (omap f l') (fun ys => Ok (y :: ys)))
  end.

(** [d[k]] on a dict. *)
Definition dict_getitem {V} (d : gmap Z V) (k : Z) : outcome V :=
  match d !! k with
  | Some v => Ok v
  | None => Raise KeyError
  end.

(** [a[i]] on a one-dimensional array, for an index [i >= 0]. *)
Definition array_getitem {V} (a : list V) (i : nat) : outcome V :=
  match a !! i with
  | Some v => Ok v
  | None => Raise IndexError
  end.

(** ** Contrast enhancement *)

(** Whether an array has no pixel. *)
Definition nd_empty (a : ndarray) : bool :=
  (shape_h a <=? 0) || (shape_w a <=? 0).

(** The OpenCV operations [enhance_for_cls] calls.  Each of them may raise
    [cv2.error], which is [None] here, and [cv2.cvtColor] does so on an array
    without pixels. *)
Record CV2 := {
  Lab : Type;
  Chan : Type;
  cvtColor_RGB2LAB : ndarray -> option Lab;
  split : Lab -> option (Chan * Chan * Chan);
  CLAHE_apply : Q -> Z * Z -> Chan -> option Chan;  (* clipLimit, tileGridSize *)
  merge : Chan * Chan * Chan -> option Lab;
  cvtColor_LAB2RGB : Lab -> option ndarray;
  cvtColor_empty : forall a, nd_empty a = true -> cvtColor_RGB2LAB a = None
}.

(** A call into OpenCV. *)
Definition cv_call {A} (r : option A) : outcome A :=
  match r with
  | Some a => Ok a
  | None => Raise CvError
  end.

Definition enhance_for_cls (cv2 : option CV2) (crop : ndarray)
  : outcome ndarray :=
  match cv2 with
  | None => Ok crop
  | Some cv =>
      obind (cv_call (cvtColor_RGB2LAB cv crop)) (fun lab =>
      obind (cv_call (split cv lab)) (fun '(l, a, b) =>
      obind (cv_call (CLAHE_apply cv 2.0 (8, 8) l)) (fun cl =>
      obind (cv_call (merge cv (cl, a, b))) (fun limg =>
      cv_call (cvtColor_LAB2RGB cv limg)))))
  end.

(** One call of [cls_model.predict]. *)
Record cls_call := {
  call_source : ndarray;
  call_device : string;
  call_imgsz : Z
}.

(** A computation that may raise and that records the classifier calls it
    made, oldest first. *)
Definition M (A : Type) : Type := outcome A * list cls_call.

Definition ret {A} (a : A) : M A := (Ok a, []).

Definition raise {A} (e : exn) : M A := (Raise e, []).

Definition bind {A B} (m : M A) (f : A -> M B) : M B :=
  match m with
  | (Ok a, log) => let '(r, log') := f a in (r, log ++ log')
  | (Raise e, log) => (Raise e, log)
  end.

Definition lift {A} (o : outcome A) : M A := (o, []).

Notation "'do' x <- m ;; k" := (bind m (fun x => k))
  (at level 10, x name, m at level 99, k at level 200).

(** ** External models *)

Definition DEVICE : string := "mps".

(** What [cls_model.predict(...)[0]] exposes. *)
Record ClsResults := {
  probs : option (list Q);
  names : gmap Z string
}.

(** The classification model: a function of the crop and of the call's
    parameters (the weights are read-only). *)
Record Classifier := {
  cls_predict : ndarray -> string -> Z -> ClsResults
}.

(** One detected box: [xyxy[0]], [conf[0]] and [cls[0]] when [cls] is set. *)
Record Box := {
  xyxy : Q * Q * Q * Q;
  conf : Q;
  box_cls : option Q
}.

(** What [det_model.predict(...)[0]] exposes. *)
Record DetResults := {
  boxes : option (list Box);
  det_names : gmap Z string
}.

Record Detector := {
  det_predict : PILImage -> string -> Z -> Q -> Q -> Z -> DetResults
}.

(** [np.argsort] with its default [kind]: the result lists every index of
    the array once and reads the array in non-decreasing order.  The default
    sort is not a stable one, so nothing is said about the order of equal
    elements. *)
Record NumpyArgsort := {
  argsort : list Q -> list nat;
  argsort_perm : forall a, argsort a ≡ₚ seq 0 (length a);
  argsort_sorted : forall a,
    StronglySorted
      (fun i j => forall x y, a !! i = Some x -> a !! j = Some y -> (x <= y)%Q)
      (argsort a)
}.

(** ** Results *)

(** An element of [top_list]. *)
Record TopEntry := {
  label : string;
  confidence : Q
}.

(** The dict [classify_crop] returns. *)
Record ClsOut := {
  cls_label : option string;
  cls_confidence : option Q;
  topk : list TopEntry
}.

Definition null_result : ClsOut :=
  {| cls_label := None; cls_confidence := None; topk := [] |}.

(** The ["det"] part of an output entry. *)
Record Det := {
  det_label : string;
  det_confidence : Q;
  bbox_xyxy : list Q
}.

(** An element of [out]. *)
Record Entry := {
  det : Det;
  cls : ClsOut
}.

Record UploadFile := {
  filename : option string;
  file_bytes : list Byte.byte
}.

(** The response of [/predict]; [timing_ms] is wall-clock time and is left
    out. *)
Inductive Response :=
  | JSONError (status_code : Z) (error : string)
  | Success (file_name : option string) (image_size : Z * Z)
      (detections : list Entry).

(** ** The pipeline *)

Section Pipeline.

Variable np : NumpyArgsort.
Variable cv2 : option CV2.

(** [Image.open], [ImageOps.exif_transpose] and [convert("RGB")]. *)
Variable pil_open_rgb : list Byte.byte -> outcome PILImage.

Definition read_image (bytes : list Byte.byte) : outcome PILImage :=
  pil_open_rgb bytes.

(** Line 152: [np.argsort(-p)[:topk]]. *)
Definition top_indices (p : list Q) (topk : Z) : list nat :=
  py_take topk (argsort np (Qopp <$> p)).

(** Lines 155-158: one element of [top_list]. *)
Definition top_entry (names : gmap Z string) (p : list Q) (i : nat)
  : outcome TopEntry :=
  obind (dict_getitem names (Z.of_nat i)) (fun l =>
  obind (array_getitem p i) (fun c =>
  Ok {| label := l; confidence := c |})).

(** Lines 147-161 of [classify_crop]: from the classifier's answer to the
    returned dict. *)
Definition aggregate (res : ClsResults) (topk : Z) : outcome ClsOut :=
  match probs res with
  | None => Ok null_result
  | Some p =>
      let idxs := top_indices p topk in
      let names := names res in
      obind (omap (top_entry names p) idxs) (fun top_list =>
      let best :=
        match top_list with
        | e :: _ => (Some (label e), Some (confidence e))
        | [] => (None, None)
        end in
      Ok {| cls_label := fst best; cls_confidence := snd best;
            topk := top_list |})
  end.

(** [cls_model.predict(source=crop, device=DEVICE, imgsz=imgsz)[0]] *)
Definition call_classifier (m : Classifier) (crop : ndarray) (imgsz : Z)
  : M ClsResults :=
  (Ok (cls_predict m crop DEVICE imgsz),
   [{| call_source := crop; call_device := DEVICE; call_imgsz := imgsz |}]).

Definition classify_crop (cls_model : option Classifier) (crop : ndarray)
    (imgsz topk : Z) : M ClsOut :=
  match cls_model with
  | None => raise AssertionError
  | Some m =>
      do res <- call_classifier m crop imgsz ;;
      lift (aggregate res topk)
  end.

(** Lines 230-234 and 243-247: the ["det"] dict of a box. *)
Definition det_of_box (names : gmap Z string) (b : Box) : Det :=
  let '(x1, y1, x2, y2) := xyxy b in
  let cls_id := match box_cls b with Some c => py_int c | None => 0 end in
  let det_label := default (pretty cls_id) (names !! cls_id) in
  {| det_label := det_label; det_confidence := conf b;
     bbox_xyxy := [x1; y1; x2; y2] |}.

(** Lines 236-237: what is handed to the classifier for a box, unless the
    enhancement raises. *)
Definition crop_of_box (np_img : ndarray) (b : Box) : outcome ndarray :=
  enhance_for_cls cv2 (head_square_crop np_img (xyxy b)).

(** The loop of lines 228-250, with [out] as it stands on entry. *)
Fixpoint predict_loop (cls_model : option Classifier) (np_img : ndarray)
    (names : gmap Z string) (cls_imgsz cls_topk : Z)
    (bs : list Box) (out : list Entry) : M (list Entry) :=
  match bs with
  | [] => ret out
  | b :: bs' =>
      do crop <- lift (crop_of_box np_img b) ;;
      do cls_out <- classify_crop cls_model crop cls_imgsz cls_topk ;;
      predict_loop cls_model np_img names cls_imgsz cls_topk bs'
        (out ++ [{| det := det_of_box names b; cls := cls_out |}])
  end.

Definition predict (det_model : option Detector)
    (cls_model : option Classifier) (file : UploadFile)
    (det_conf det_iou : Q) (cls_imgsz cls_topk max_dets : Z) : M Response :=
  match det_model, cls_model with
  | Some dm, Some _ =>
      do pil_img <- lift (read_image (file_bytes file)) ;;
      let np_img := pil_to_np pil_img in
      let det_res :=
        det_predict dm pil_img DEVICE 1024 det_conf det_iou max_dets in
      let size := (width pil_img, height pil_img) in
      match boxes det_res with
      | None | Some [] => ret (Success (filename file) size [])
      | Some bs =>
          let names := det_names det_res in
          do out <- predict_loop cls_model np_img names cls_imgsz cls_topk
                      bs [] ;;
          ret (Success (filename file) size out)
      end
  | _, _ => ret (JSONError 500 "Models not loaded")
  end.

End Pipeline.

(** ** Two sorts that meet the [np.argsort] contract *)

(** The element of [a] at index [i], read as [0] past the end. *)
Definition key (a : list Q) (i : nat) : Q := default 0%Q (a !! i).

Definition key_le (a : list Q) (i j : nat) : Prop := (key a i <= key a j)%Q.

(** Whether index [i] goes in front of index [j]: on a tie it does when
    [ties_first] is set and does not otherwise. *)
Definition goes_before (ties_first : bool) (a : list Q) (i j : nat) : bool :=
  if ties_first then Qle_bool (key a i) (key a j)
  else negb (Qle_bool (key a j) (key a i)).

Fixpoint insert_index (ties_first : bool) (a : list Q) (i : nat)
    (l : list nat) : list nat :=
  match l with
  | [] => [i]
  | j :: l' =>
      if goes_before ties_first a i j then i :: l
      else j :: insert_index ties_first a i l'
  end.

(** Insertion sort of the indices of [a], last index inserted first. *)
Definition insertion_argsort (ties_first : bool) (a : list Q) : list nat :=
  foldr (insert_index ties_first a) [] (seq 0 (length a)).

(** ** The two insertion sorts meet the [np.argsort] contract *)

Lemma goes_before_true (t : bool) (a : list Q) (i j : nat) :
  goes_before t a i j = true -> key_le a i j.
Proof.
  unfold goes_before, key_le. destruct t; intros H.
  - by apply Qle_bool_iff.
  - apply negb_true_iff in H. apply Qlt_le_weak, Qnot_le_lt.
    intros Hle. apply Qle_bool_iff in Hle. congruence.
Qed.

Lemma goes_before_false (t : bool) (a : list Q) (i j : nat) :
  goes_before t a i j = false -> key_le a j i.
Proof.
  unfold goes_before, key_le. destruct t; intros H.
  - apply Qlt_le_weak, Qnot_le_lt.
    intros Hle. apply Qle_bool_iff in Hle. congruence.
  - apply negb_false_iff in H. by apply Qle_bool_iff.
Qed.

Lemma key_le_trans (a : list Q) (i j k : nat) :
  key_le a i j -> key_le a j k -> key_le a i k.
Proof. unfold key_le. apply Qle_trans. Qed.

Lemma insert_index_perm (t : bool) (a : list Q) (i : nat) (l : list nat) :
  insert_index t a i l ≡ₚ i :: l.
Proof.
  induction l as [|j l IH]; simpl; [done|].
  destruct (goes_before t a i j); [done|].
  rewrite IH. apply Permutation_swap.
Qed.

Lemma insert_index_sorted (t : bool) (a : list Q) (i : nat) (l : list nat) :
  StronglySorted (key_le a) l ->
  StronglySorted (key_le a) (insert_index t a i l).
Proof.
  induction l as [|j l IH]; simpl; intros Hs.
  - repeat constructor.
  - apply StronglySorted_cons in Hs as [Hj Hl].
    destruct (goes_before t a i j) eqn:E.
    + apply goes_before_true in E.
      apply StronglySorted_cons. split.
      * constructor; [done|].
        eapply Forall_impl; [exact Hj|]. intros k Hk.
        by eapply key_le_trans.
      * by apply StronglySorted_cons.
    + apply goes_before_false in E.
      apply StronglySorted_cons. split; [|by apply IH].
      rewrite insert_index_perm. by constructor.
Qed.

Lemma insertion_argsort_perm (t : bool) (a : list Q) :
  insertion_argsort t a ≡ₚ seq 0 (length a).
Proof.
  unfold insertion_argsort. induction (seq 0 (length a)) as [|i l IH]; simpl.
  - done.
  - by rewrite insert_index_perm, IH.
Qed.

Lemma StronglySorted_weaken {A} (R R' : A -> A -> Prop) (l : list A) :
  (forall x y, R x y -> R' x y) -> StronglySorted R l -> StronglySorted R' l.
Proof.
  intros HR. induction 1 as [|x l Hl IH Hx]; constructor; [done|].
  eapply Forall_impl; [exact Hx|]. auto.
Qed.

Lemma insertion_argsort_sorted (t : bool) (a : list Q) :
  StronglySorted
    (fun i j => forall x y, a !! i = Some x -> a !! j = Some y -> (x <= y)%Q)
    (insertion_argsort t a).
Proof.
  apply (StronglySorted_weaken (key_le a)).
  - unfold key_le, key. intros i j H x y Hx Hy. by rewrite Hx, Hy in H.
  - unfold insertion_argsort.
    induction (seq 0 (length a)) as [|i l IH]; simpl.
    + constructor.
    + by apply insert_index_sorted.
Qed.

(** The stable sort: among equal elements the lower index comes first. *)
Definition stable_argsort : NumpyArgsort :=
  {| argsort := insertion_argsort true;
     argsort_perm := insertion_argsort_perm true;
     argsort_sorted := insertion_argsort_sorted true |}.

(** A sort that puts the higher index first among equal elements. *)
Definition unstable_argsort : NumpyArgsort :=
  {| argsort := insertion_argsort false;
     argsort_perm := insertion_argsort_perm false;
     argsort_sorted := insertion_argsort_sorted false |}.

Example stable_argsort_example :
  argsort stable_argsort [3; 1; 2; 1]%Q = [1; 3; 2; 0]%nat.
Proof. reflexivity. Qed.

Example unstable_argsort_example :
  argsort unstable_argsort [3; 1; 2; 1]%Q = [3; 1; 2; 0]%nat.
Proof. reflexivity. Qed.

(** ** The specification's box invariants *)

(** The invariant the specification gives for a clipped box. *)
Definition strictly_inside (w h : Z) (b : Z * Z * Z * Z) : Prop :=
  let '(x1, y1, x2, y2) := b in
  (0 <= x1 /\ x1 < x2 /\ x2 <= w - 1) /\ (0 <= y1 /\ y1 < y2 /\ y2 <= h - 1).

(** The same with the two strict inequalities relaxed. *)
Definition weakly_inside (w h : Z) (b : Z * Z * Z * Z) : Prop :=
  let '(x1, y1, x2, y2) := b in
  (0 <= x1 /\ x1 <= x2 /\ x2 <= w - 1) /\ (0 <= y1 /\ y1 <= y2 /\ y2 <= h - 1).

(** ** What the pipeline returns when nothing raises *)

(** The classifier's label table has an entry for every class it scores. *)
Definition names_cover (res : ClsResults) : Prop :=
  forall p, probs res = Some p ->
  forall i, (i < length p)%nat -> is_Some (names res !! Z.of_nat i).

(** The element of [top_list] built for index [i], when nothing raises. *)
Definition entry_at (names : gmap Z string) (p : list Q) (i : nat) : TopEntry :=
  {| label := default "" (names !! Z.of_nat i); confidence := key p i |}.

(** Ties go to the lowest index: of two classes with equal probability,
    the one with the higher index is selected only if the other one is, and
    then after it. *)
Definition ties_lowest_first (idxs : list nat) (p : list Q) : Prop :=
  forall i j vi vj,
    (i < j)%nat -> p !! i = Some vi -> p !! j = Some vj -> (vi == vj)%Q ->
    j ∈ idxs ->
    exists a b, idxs !! a = Some i /\ idxs !! b = Some j /\ (a < b)%nat.

(** [np.argsort] keeps equal elements of [a] in index order, as a stable
    sort does. *)
Definition stable_on (np : NumpyArgsort) (a : list Q) : Prop :=
  StronglySorted
    (fun i j => forall x y,
       a !! i = Some x -> a !! j = Some y -> (x == y)%Q -> (i < j)%nat)
    (argsort np a).


(** The boxes of a detection result, none when [boxes] is [None]. *)
Definition detected (r : DetResults) : list Box := default [] (boxes r).

Section Expected.

Variable np : NumpyArgsort.
Variable cv2 : option CV2.

(** The classification of a crop, when nothing raises. *)
Definition cls_of (m : Classifier) (crop : ndarray) (imgsz topk : Z)
  : ClsOut :=
  let res := cls_predict m crop DEVICE imgsz in
  match probs res with
  | None => null_result
  | Some p =>
      let top_list := entry_at (names res) p <$> top_indices np p topk in
      {| cls_label := label <$> head top_list;
         cls_confidence := confidence <$> head top_list;
         topk := top_list |}
  end.

(** The classifier call made on an enhanced crop. *)
Definition call_of (imgsz : Z) (crop : ndarray) : cls_call :=
  {| call_source := crop; call_device := DEVICE; call_imgsz := imgsz |}.

(** The output entry of a box whose enhanced crop is [crop], when nothing
    raises. *)
Definition entry_of (m : Classifier) (names : gmap Z string)
    (imgsz topk : Z) (b : Box) (crop : ndarray) : Entry :=
  {| det := det_of_box names b; cls := cls_of m crop imgsz topk |}.

(** What lines 236-239 make of a box: the enhancement of its crop, then
    [classify_crop] on the classifier's answer, labels or no labels. *)
Definition answer_of (m : Classifier) (np_img : ndarray) (imgsz topk : Z)
    (b : Box) : outcome ClsOut :=
  obind (crop_of_box cv2 np_img b) (fun crop =>
  aggregate np (cls_predict m crop DEVICE imgsz) topk).

(** The classifier calls made for a box: one when the enhancement of its
    crop returns, none when it raises. *)
Definition box_calls (np_img : ndarray) (imgsz : Z) (b : Box)
  : list cls_call :=
  match crop_of_box cv2 np_img b with
  | Ok crop => [call_of imgsz crop]
  | Raise _ => []
  end.

End Expected.

(** ** A concrete run *)

(** A 200x200 black upload, a detector that reports three boxes and a
    classifier that gives no probabilities on crops narrower than 10
    pixels. *)
Definition test_image : PILImage :=
  {| width := 200; height := 200; getpixel := fun _ _ => (0, 0, 0) |}.

Definition test_open (bytes : list Byte.byte) : outcome PILImage :=
  Ok test_image.

Definition test_file : UploadFile :=
  {| filename := Some "screws.jpg"; file_bytes := [] |}.


Definition test_detector (bs : option (list Box)) : Detector :=
  {| det_predict := fun _ _ _ _ _ _ =>
       {| boxes := bs; det_names := {[ 0 := "screw" ]} |} |}.

Definition test_classifier : Classifier :=
  {| cls_predict := fun crop _ _ =>
       {| probs := if shape_w crop <? 10 then None
                   else Some [0.2; 0.8]%Q;
          names := {[ 0 := "M3"; 1 := "M4" ]} |} |}.

(** An OpenCV whose operations leave the pixels alone and raise only where
    [cv2.cvtColor] must. *)
Definition test_cv2 : CV2 :=
  {| Lab := ndarray; Chan := ndarray;
     cvtColor_RGB2LAB := fun a => if nd_empty a then None else Some a;
     split := fun lab => Some (lab, lab, lab);
     CLAHE_apply := fun _ _ l => Some l;
     merge := fun '(cl, _, _) => Some cl;
     cvtColor_LAB2RGB := fun limg => Some limg;
     cvtColor_empty := fun a (H : nd_empty a = true) =>
       @eq_ind_r bool true
         (fun e : bool => (if e then None else Some a) = None)
         eq_refl (nd_empty a) H |}.

(** A box clamped onto the last column of a 200x200 image. *)
Definition edge_box : Box :=
  {| xyxy := (199, 50, 199, 50)%Q; conf := 0.6%Q; box_cls := Some 0%Q |}.

(** The same classifier with a label for class 0 only. *)
Definition test_classifier_short : Classifier :=
  {| cls_predict := fun crop _ _ =>
       {| probs := if shape_w crop <? 10 then None
                   else Some [0.2; 0.8]%Q;
          names := {[ 0 := "M3" ]} |} |}.

Definition small_box : Box :=
  {| xyxy := (0, 0, 4, 4)%Q; conf := 0.8%Q; box_cls := Some 0%Q |}.

Definition large_box : Box :=
  {| xyxy := (10, 20, 40, 80)%Q; conf := 0.9%Q; box_cls := Some 0%Q |}.

(** ** Windows on an image *)

(** [crop] is a view of [img] that starts at row [r0] and column [c0] and
    ends before the last row and the last column of [img]. *)
Definition window_at (img crop : ndarray) (r0 c0 : Z) : Prop :=
  crop = {| shape_h := shape_h crop; shape_w := shape_w crop;
            px := fun r c => px img (r0 + r) (c0 + c) |} /\
  0 <= r0 /\ 0 <= c0 /\ 0 <= shape_h crop /\ 0 <= shape_w crop /\
  r0 + shape_h crop <= shape_h img - 1 /\
  c0 + shape_w crop <= shape_w img - 1.

(** * Properties *)

(** ** [py_int] *)

Lemma py_int_num (z : Z) : py_int (py_num z) = z.
Proof. unfold py_int, py_num. simpl. apply Z.quot_1_r. Qed.

(** On a non-negative number truncation is the floor. *)
Lemma py_int_floor (x : Q) : (0 <= x)%Q -> py_int x = Qfloor x.
Proof.
  destruct x as [n d]. unfold Qle, py_int, Qfloor. simpl. intros Hn.
  apply Z.quot_div_nonneg; lia.
Qed.

(** ** [clip_box] *)

Example clip_box_scenario_A :
  clip_box 90 90 120 120 100 100 = (90, 90, 99, 99).
Proof. reflexivity. Qed.

Example clip_box_truncates_toward_zero :
  clip_box (-0.5) 1.9 3.7 (-2.5) 10 10 = (0, 1, 3, 2).
Proof. reflexivity. Qed.

Ltac clip_cases :=
  unfold strictly_inside, weakly_inside, clip_box, clamped;
  repeat match goal with
         | |- context [?a <=? ?b] => destruct (Z.leb_spec a b)
         end;
  try lia.

Lemma clip_box_bounds (x1 y1 x2 y2 : Q) (w h : Z) :
  1 <= w -> 1 <= h -> weakly_inside w h (clip_box x1 y1 x2 y2 w h).
Proof. intros Hw Hh. clip_cases. Qed.

(** C10.  For an image of width and height at least 1, the clipped box stays
    in the image and is not inverted:
    [0 <= x1 <= x2 <= w-1] and [0 <= y1 <= y2 <= h-1]. *)
Theorem clip_box_weakly_inside (x1 y1 x2 y2 : Q) (w h : Z) :
  1 <= w -> 1 <= h -> weakly_inside w h (clip_box x1 y1 x2 y2 w h).
Proof. intros Hw Hh. clip_cases. Qed.

Lemma clip_box_weakly_inside_witness :
  weakly_inside 1 1 (clip_box 7 (-3) 2 9 1 1).
Proof. apply clip_box_weakly_inside; lia. Defined.

(** C1, as the code has it.  For an image of width and height at least 2 the
    clipped box stays in the image, and its two x coordinates differ exactly
    when the truncated [x1] lies left of the last column; likewise for y and
    the last row. *)
Theorem clip_box_strict_iff (x1 y1 x2 y2 : Q) (w h : Z) :
  2 <= w -> 2 <= h ->
  let '(cx1, cy1, cx2, cy2) := clip_box x1 y1 x2 y2 w h in
  weakly_inside w h (cx1, cy1, cx2, cy2) /\
  (cx1 < cx2 <-> py_int x1 < w - 1) /\
  (cy1 < cy2 <-> py_int y1 < h - 1).
Proof. intros Hw Hh. clip_cases. Qed.

Lemma clip_box_strict_iff_witness :
  let '(cx1, cy1, cx2, cy2) := clip_box 50 50 50 60 200 200 in
  weakly_inside 200 200 (cx1, cy1, cx2, cy2) /\
  (cx1 < cx2 <-> py_int 50 < 200 - 1) /\
  (cy1 < cy2 <-> py_int 50 < 200 - 1).
Proof. apply (clip_box_strict_iff 50 50 50 60 200 200); lia. Defined.

(** C1 fails as stated: a box that starts right of a 200x200 image is
    clipped to zero width. *)
Lemma clip_box_strict_counterexample :
  2 <= 200 /\
  clip_box 300 50 400 60 200 200 = (199, 50, 199, 60) /\
  ~ strictly_inside 200 200 (clip_box 300 50 400 60 200 200).
Proof.
  assert (clip_box 300 50 400 60 200 200 = (199, 50, 199, 60)) as E
    by reflexivity.
  rewrite E. unfold strictly_inside. repeat split; lia.
Qed.

Lemma clip_box_by_axis (x1 y1 x2 y2 : Q) (w h : Z) :
  clip_box x1 y1 x2 y2 w h =
  (fst (clip_axis (py_int x1) (py_int x2) w),
   fst (clip_axis (py_int y1) (py_int y2) h),
   snd (clip_axis (py_int x1) (py_int x2) w),
   snd (clip_axis (py_int y1) (py_int y2) h)).
Proof. reflexivity. Qed.

Lemma clip_axis_idempotent (v1 v2 n : Z) :
  clip_axis (fst (clip_axis v1 v2 n)) (snd (clip_axis v1 v2 n)) n
  = clip_axis v1 v2 n.
Proof.
  unfold clip_axis. cbn [fst snd].
  set (a := Z.max 0 (Z.min v1 (n - 1))).
  set (b := Z.max 0 (Z.min v2 (n - 1))).
  assert (Z.max 0 (Z.min a (n - 1)) = a) as -> by lia.
  destruct (Z.leb_spec b a) as [Hba|Hba].
  - set (c := Z.min (n - 1) (a + 1)).
    destruct (Z.leb_spec (Z.max 0 (Z.min c (n - 1))) a) as [Hc|Hc].
    + reflexivity.
    + f_equal. lia.
  - assert (Z.max 0 (Z.min b (n - 1)) = b) as -> by lia.
    destruct (Z.leb_spec b a); [lia | reflexivity].
Qed.

(** C4.  Clipping a clipped box again changes nothing (for every width and
    height, in particular for those at least 1). *)
Theorem clip_box_idempotent (x1 y1 x2 y2 : Q) (w h : Z) :
  let '(cx1, cy1, cx2, cy2) := clip_box x1 y1 x2 y2 w h in
  clip_box (py_num cx1) (py_num cy1) (py_num cx2) (py_num cy2) w h
  = (cx1, cy1, cx2, cy2).
Proof.
  rewrite (clip_box_by_axis x1 y1 x2 y2 w h). cbv beta iota.
  rewrite clip_box_by_axis, !py_int_num, !clip_axis_idempotent.
  reflexivity.
Qed.



(** ** Generic facts on lists and on the error monad *)

Lemma StronglySorted_restrict {A} (P : A -> Prop) (R : A -> A -> Prop)
    (l : list A) :
  Forall P l -> StronglySorted R l ->
  StronglySorted (fun x y => P x /\ P y /\ R x y) l.
Proof.
  intros HP Hs. induction Hs as [|x l Hl IH Hx]; [constructor|].
  apply Forall_cons in HP as [Hpx HP]. constructor; [by apply IH|].
  apply Forall_forall. intros y Hy.
  rewrite Forall_forall in HP, Hx. auto.
Qed.

Lemma StronglySorted_take {A} (R : A -> A -> Prop) (n : nat) (l : list A) :
  StronglySorted R l -> StronglySorted R (take n l).
Proof.
  intros Hs. rewrite <- (take_drop n l) in Hs.
  by apply StronglySorted_app_1_l in Hs.
Qed.

Lemma py_take_nonneg {A} (k : Z) (l : list A) :
  0 <= k -> py_take k l = take (Z.to_nat k) l.
Proof. intros Hk. unfold py_take. destruct (Z.ltb_spec k 0); [lia|done]. Qed.

Lemma py_take_sublist {A} (k : Z) (l : list A) :
  exists n, py_take k l = take n l.
Proof. unfold py_take. destruct (k <? 0); eauto. Qed.

Lemma omap_total {A B} (f : A -> outcome B) (g : A -> B) (l : list A) :
  (forall x, x ∈ l -> f x = Ok (g x)) -> omap f l = Ok (g <$> l).
Proof.
  induction l as [|x l IH]; simpl; intros H; [done|].
  rewrite H by left. simpl. rewrite IH; [done|].
  intros y Hy. apply H. by right.
Qed.

(** ** [np.argsort] and [aggregate] *)

Section Aggregate.

Variable np : NumpyArgsort.

Lemma argsort_length (a : list Q) : length (argsort np a) = length a.
Proof. by rewrite (argsort_perm np a), length_seq. Qed.

Lemma argsort_elem_of (a : list Q) (i : nat) :
  i ∈ argsort np a <-> (i < length a)%nat.
Proof. rewrite (argsort_perm np a), elem_of_seq. lia. Qed.

Lemma argsort_NoDup (a : list Q) : NoDup (argsort np a).
Proof. rewrite (argsort_perm np a). apply NoDup_seq. Qed.

(** Read on the probabilities, the order of [np.argsort(-p)] is
    non-increasing. *)
Lemma argsort_neg_sorted (p : list Q) :
  StronglySorted (fun i j => (key p j <= key p i)%Q)
    (argsort np (Qopp <$> p)).
Proof.
  pose proof (argsort_sorted np (Qopp <$> p)) as Hs.
  apply (StronglySorted_restrict (fun i => (i < length p)%nat)) in Hs.
  - eapply StronglySorted_weaken; [|exact Hs].
    intros i j (Hi & Hj & H). simpl in H.
    apply lookup_lt_is_Some_2 in Hi as [vi Hvi].
    apply lookup_lt_is_Some_2 in Hj as [vj Hvj].
    unfold key. rewrite Hvi, Hvj. simpl.
    specialize (H (- vi)%Q (- vj)%Q).
    rewrite !list_lookup_fmap, Hvi, Hvj in H.
    specialize (H eq_refl eq_refl).
    apply Qopp_le_compat in H. by rewrite !Qopp_involutive in H.
  - apply Forall_forall. intros i Hi.
    apply argsort_elem_of in Hi. by rewrite length_fmap in Hi.
Qed.

Lemma top_indices_in_range (p : list Q) (k : Z) (i : nat) :
  i ∈ top_indices np p k -> (i < length p)%nat.
Proof.
  unfold top_indices.
  destruct (py_take_sublist k (argsort np (Qopp <$> p))) as [n ->].
  intros Hi. apply elem_of_take in Hi as (j & Hj & _).
  apply list_elem_of_lookup_2, argsort_elem_of in Hj.
  by rewrite length_fmap in Hj.
Qed.

Lemma top_entry_ok (res : ClsResults) (p : list Q) (k : Z) (i : nat) :
  probs res = Some p -> names_cover res -> i ∈ top_indices np p k ->
  top_entry (names res) p i = Ok (entry_at (names res) p i).
Proof.
  intros Hp Hn Hi. apply top_indices_in_range in Hi.
  destruct (Hn p Hp i Hi) as [l Hl].
  apply lookup_lt_is_Some_2 in Hi as [c Hc].
  unfold top_entry, entry_at, dict_getitem, array_getitem, key.
  by rewrite Hl, Hc.
Qed.

(** What [aggregate] returns on a probability vector. *)
Lemma aggregate_ok (res : ClsResults) (p : list Q) (k : Z) :
  probs res = Some p -> names_cover res ->
  let top_list := entry_at (names res) p <$> top_indices np p k in
  aggregate np res k =
  Ok {| cls_label := label <$> head top_list;
        cls_confidence := confidence <$> head top_list;
        topk := top_list |}.
Proof.
  intros Hp Hn. unfold aggregate. rewrite Hp. cbv zeta.
  rewrite (omap_total _ (entry_at (names res) p)).
  - simpl. by destruct (entry_at (names res) p <$> top_indices np p k).
  - intros i Hi. by eapply top_entry_ok.
Qed.

End Aggregate.

Example aggregate_example :
  aggregate stable_argsort
    {| probs := Some [0.2; 0.5; 0.3]%Q;
       names := {[ 0 := "m3"; 1 := "m4"; 2 := "m5" ]} |} 2 =
  Ok {| cls_label := Some "m4"; cls_confidence := Some 0.5%Q;
        topk := [ {| label := "m4"; confidence := 0.5%Q |};
                  {| label := "m5"; confidence := 0.3%Q |} ] |}.
Proof. reflexivity. Qed.

Example aggregate_absent (np : NumpyArgsort) (names : gmap Z string) (k : Z) :
  aggregate np {| probs := None; names := names |} k = Ok null_result.
Proof. reflexivity. Qed.

Example aggregate_missing_label :
  aggregate stable_argsort
    {| probs := Some [0.2; 0.5; 0.3]%Q; names := {[ 0 := "m3" ]} |} 2 =
  Raise KeyError.
Proof. reflexivity. Qed.

Example stable_sort_on_ties :
  top_indices stable_argsort [0.2; 0.5; 0.5]%Q 1 = [1%nat].
Proof. reflexivity. Qed.

(** C6.  On a probability vector [p] and a count [k >= 0], [aggregate]
    returns a result whose [topk] has length [min(k, len(p))] and
    non-increasing confidences, and whose top-level label and confidence are
    those of [topk[0]] when there is one. *)
Theorem aggregate_topk_sorted (np : NumpyArgsort) (res : ClsResults)
    (p : list Q) (k : Z) :
  probs res = Some p -> names_cover res -> 0 <= k ->
  exists out,
    aggregate np res k = Ok out /\
    length (topk out) = Nat.min (Z.to_nat k) (length p) /\
    StronglySorted (fun e1 e2 => (confidence e2 <= confidence e1)%Q)
      (topk out) /\
    (forall e, head (topk out) = Some e ->
       cls_label out = Some (label e) /\
       cls_confidence out = Some (confidence e)).
Proof.
  intros Hp Hn Hk. eexists. split; [by apply aggregate_ok|]. simpl.
  unfold top_indices. rewrite py_take_nonneg by done.
  split; [|split].
  - by rewrite length_fmap, length_take, argsort_length, length_fmap.
  - eapply StronglySorted_fmap
      with (R1 := fun i j => (key p j <= key p i)%Q).
    + by intros i j H.
    + apply StronglySorted_take, argsort_neg_sorted.
  - intros e He. by rewrite He.
Qed.

Lemma aggregate_topk_sorted_witness :
  exists out,
    aggregate stable_argsort
      {| probs := Some [0.2; 0.5; 0.3]%Q;
         names := {[ 0 := "m3"; 1 := "m4"; 2 := "m5" ]} |} 2 = Ok out /\
    length (topk out) = Nat.min (Z.to_nat 2) 3 /\
    StronglySorted (fun e1 e2 => (confidence e2 <= confidence e1)%Q)
      (topk out) /\
    (forall e, head (topk out) = Some e ->
       cls_label out = Some (label e) /\
       cls_confidence out = Some (confidence e)).
Proof.
  apply (aggregate_topk_sorted stable_argsort
           {| probs := Some [0.2; 0.5; 0.3]%Q;
              names := {[ 0 := "m3"; 1 := "m4"; 2 := "m5" ]} |}
           [0.2; 0.5; 0.3]%Q 2).
  - reflexivity.
  - intros p [= <-] i Hi. simpl in Hi.
    destruct i as [|[|[|i]]]; [by eexists ..|lia].
  - lia.
Defined.

(** X21.  For [k >= 0] the selected indices are
    [min(k, len(p))] distinct class indices, listed by non-increasing
    probability, and no class left out has a larger probability than a
    selected one.  Nothing is said on the order of equal probabilities. *)
Theorem top_indices_largest (np : NumpyArgsort) (p : list Q) (k : Z) :
  0 <= k ->
  let idxs := top_indices np p k in
  length idxs = Nat.min (Z.to_nat k) (length p) /\
  NoDup idxs /\
  (forall i, i ∈ idxs -> (i < length p)%nat) /\
  StronglySorted (fun i j => (key p j <= key p i)%Q) idxs /\
  (forall i j, i ∈ idxs -> (j < length p)%nat -> j ∉ idxs ->
     (key p j <= key p i)%Q).
Proof.
  intros Hk idxs.
  assert (idxs = take (Z.to_nat k) (argsort np (Qopp <$> p))) as Hidxs
    by (by apply py_take_nonneg).
  pose proof (argsort_neg_sorted np p) as Hs.
  pose proof (argsort_NoDup np (Qopp <$> p)) as Hnd.
  rewrite <- (take_drop (Z.to_nat k) (argsort np (Qopp <$> p))) in Hs, Hnd.
  rewrite <- Hidxs in Hs, Hnd.
  split; [|split; [|split; [|split]]].
  - by rewrite Hidxs, length_take, argsort_length, length_fmap.
  - by apply NoDup_app in Hnd as (? & _ & _).
  - intros i. apply top_indices_in_range.
  - by apply StronglySorted_app_1_l in Hs.
  - intros i j Hi Hj Hnj.
    eapply (StronglySorted_app_1_elem_of _ _ _ i j Hs Hi).
    assert (j ∈ argsort np (Qopp <$> p)) as Hin
      by (apply argsort_elem_of; by rewrite length_fmap).
    rewrite <- (take_drop (Z.to_nat k) (argsort np (Qopp <$> p))) in Hin.
    rewrite <- Hidxs in Hin. apply elem_of_app in Hin as [|]; done.
Qed.

Lemma top_indices_largest_witness :
  let idxs := top_indices unstable_argsort [0.2; 0.5; 0.5]%Q 1 in
  length idxs = Nat.min (Z.to_nat 1) 3 /\
  NoDup idxs /\
  (forall i, i ∈ idxs -> (i < 3)%nat) /\
  StronglySorted
    (fun i j => (key [0.2; 0.5; 0.5] j <= key [0.2; 0.5; 0.5] i)%Q) idxs /\
  (forall i j, i ∈ idxs -> (j < 3)%nat -> j ∉ idxs ->
     (key [0.2; 0.5; 0.5] j <= key [0.2; 0.5; 0.5] i)%Q).
Proof.
  apply (top_indices_largest unstable_argsort [0.2; 0.5; 0.5]%Q 1). lia.
Defined.

(** The contract of [np.argsort] does not settle ties: a sort that meets it
    may select class 2 and leave out class 1, which has the same
    probability. *)
Lemma contract_leaves_ties_open :
  top_indices unstable_argsort [0.2; 0.5; 0.5]%Q 1 = [2%nat] /\
  aggregate unstable_argsort
    {| probs := Some [0.2; 0.5; 0.5]%Q;
       names := {[ 0 := "m3"; 1 := "m4"; 2 := "m5" ]} |} 1 =
  Ok {| cls_label := Some "m5"; cls_confidence := Some 0.5%Q;
        topk := [ {| label := "m5"; confidence := 0.5%Q |} ] |} /\
  ~ ties_lowest_first
      (top_indices unstable_argsort [0.2; 0.5; 0.5]%Q 1) [0.2; 0.5; 0.5]%Q.
Proof.
  assert (top_indices unstable_argsort [0.2; 0.5; 0.5]%Q 1 = [2%nat]) as E
    by reflexivity.
  rewrite E. split; [done|]. split; [reflexivity|]. intros H.
  destruct (H 1%nat 2%nat 0.5%Q 0.5%Q) as (a & b & Ha & Hb & Hab);
    [lia|done|done|reflexivity|by left|].
  destruct a as [|a]; [discriminate|]. destruct b as [|b]; [lia|].
  discriminate.
Qed.

(** ** [head_square_crop] *)

Lemma py_num_nonneg (z : Z) : 0 <= z -> (0 <= py_num z)%Q.
Proof. intros Hz. unfold py_num. by rewrite Zle_Qle in Hz. Qed.

Lemma Qfloor_py_num (z : Z) : Qfloor (py_num z) = z.
Proof. apply Qfloor_Z. Qed.

(** C5.  For a box clipped on an image of width and height at least 1,
    whose longer side [side] is at least 2, [head_square_crop] builds the
    square with top-left corner [(cx - side2, cy - side2)] and bottom-right
    corner [(cx, cy)] and returns the part of the image under that square
    clipped again, where [cx = floor((x1+x2)/2)],
    [cy = floor(y1 + 0.45*bh)], [pad = floor(side*0.05)] and
    [side2 = side + 2*pad]. *)
Theorem head_square_crop_square (np_img : ndarray) (x1 y1 x2 y2 : Q) :
  let w := shape_w np_img in
  let h := shape_h np_img in
  1 <= w -> 1 <= h ->
  let '(cx1, cy1, cx2, cy2) := clip_box x1 y1 x2 y2 w h in
  let bw := cx2 - cx1 in
  let bh := cy2 - cy1 in
  let side := Qfloor (py_num (Z.max bw bh)) in
  let cx := Qfloor ((py_num cx1 + py_num cx2) / 2) in
  let cy := Qfloor (py_num cy1 + 0.45 * py_num bh) in
  let pad := Qfloor (py_num side * 0.05) in
  let side2 := side + 2 * pad in
  2 <= side ->
  head_square cx1 cy1 cx2 cy2 side =
    (cx - side2, cy - side2, cx - side2 + side2, cy - side2 + side2) /\
  (cx - side2 + side2, cy - side2 + side2) = (cx, cy) /\
  head_square_crop np_img (x1, y1, x2, y2) =
    (let '(nx1, ny1, nx2, ny2) :=
       clip_box (py_num (cx - side2)) (py_num (cy - side2))
         (py_num cx) (py_num cy) w h in
     nd_slice np_img ny1 ny2 nx1 nx2).
Proof.
  intros w h Hw Hh.
  pose proof (clip_box_bounds x1 y1 x2 y2 w h Hw Hh) as Hin.
  unfold head_square_crop. fold w h.
  destruct (clip_box x1 y1 x2 y2 w h) as [[[cx1 cy1] cx2] cy2].
  destruct Hin as [(Hx1 & Hx12 & _) (Hy1 & Hy12 & _)].
  cbv zeta. rewrite !Qfloor_py_num. intros Hside.
  assert (head_square cx1 cy1 cx2 cy2 (Z.max (cx2 - cx1) (cy2 - cy1)) =
          (Qfloor ((py_num cx1 + py_num cx2) / 2)
             - (Z.max (cx2 - cx1) (cy2 - cy1)
                + 2 * Qfloor (py_num (Z.max (cx2 - cx1) (cy2 - cy1)) * 0.05)),
           Qfloor (py_num cy1 + 0.45 * py_num (cy2 - cy1))
             - (Z.max (cx2 - cx1) (cy2 - cy1)
                + 2 * Qfloor (py_num (Z.max (cx2 - cx1) (cy2 - cy1)) * 0.05)),
           Qfloor ((py_num cx1 + py_num cx2) / 2),
           Qfloor (py_num cy1 + 0.45 * py_num (cy2 - cy1)))) as Hsq.
  { unfold head_square.
    assert (py_int (py_num (cx1 + cx2) / 2)
            = Qfloor ((py_num cx1 + py_num cx2) / 2)) as ->.
    { rewrite py_int_floor.
      - apply Qfloor_comp. unfold py_num. by rewrite inject_Z_plus.
      - apply Qle_shift_div_l; [done|]. rewrite Qmult_0_l.
        apply py_num_nonneg. lia. }
    assert (py_int (py_num cy1 + py_num (cy2 - cy1) * 0.45)
            = Qfloor (py_num cy1 + 0.45 * py_num (cy2 - cy1))) as ->.
    { rewrite py_int_floor.
      - apply Qfloor_comp. by rewrite (Qmult_comm 0.45).
      - rewrite <- (Qplus_0_l 0). apply Qplus_le_compat.
        + apply py_num_nonneg. lia.
        + apply Qmult_le_0_compat; [apply py_num_nonneg; lia | done]. }
    rewrite (py_int_floor (py_num (Z.max (cx2 - cx1) (cy2 - cy1)) * 0.05)).
    - repeat f_equal; lia.
    - apply Qmult_le_0_compat; [apply py_num_nonneg; lia | done]. }
  split; [|split].
  - rewrite Hsq. repeat f_equal; lia.
  - f_equal; lia.
  - destruct (Z.ltb_spec (Z.max (cx2 - cx1) (cy2 - cy1)) 2); [lia|].
    by rewrite Hsq.
Qed.

Lemma head_square_crop_square_witness :
  head_square 10 20 40 80 60 = (25 - 66, 47 - 66, 25 - 66 + 66, 47 - 66 + 66)
  /\ (25 - 66 + 66, 47 - 66 + 66) = (25, 47)
  /\ head_square_crop (blank_image 100 100) (10, 20, 40, 80)%Q =
     (let '(nx1, ny1, nx2, ny2) :=
        clip_box (py_num (25 - 66)) (py_num (47 - 66)) (py_num 25)
          (py_num 47) 100 100 in
      nd_slice (blank_image 100 100) ny1 ny2 nx1 nx2).
Proof.
  apply (head_square_crop_square (blank_image 100 100) 10 20 40 80);
    vm_compute; discriminate.
Defined.

(** ** The [/predict] loop *)

Lemma bind_lift_ok {A B} (a : A) (f : A -> M B) : bind (lift (Ok a)) f = f a.
Proof. unfold bind, lift. by destruct (f a). Qed.


Section Predict.

Variable np : NumpyArgsort.
Variable cv2 : option CV2.
Variable pil_open_rgb : list Byte.byte -> outcome PILImage.





End Predict.

Example det_of_box_unnamed_class :
  det_of_box {[ 0 := "screw" ]}
    {| xyxy := (1, 2, 3, 4)%Q; conf := 0.5%Q; box_cls := Some 7.0%Q |} =
  {| det_label := "7"; det_confidence := 0.5%Q;
     bbox_xyxy := [1; 2; 3; 4]%Q |}.
Proof. reflexivity. Qed.

Example predict_models_not_loaded (np : NumpyArgsort) (cv2 : option CV2)
    (pil_open_rgb : list Byte.byte -> outcome PILImage) (cm : Classifier)
    (file : UploadFile) :
  predict np cv2 pil_open_rgb None (Some cm) file 0.2 0.7 1024 3 50 =
  (Ok (JSONError 500 "Models not loaded"), []).
Proof. reflexivity. Qed.



(** C8.  When both models are loaded and the upload decodes, a detection
    result without boxes is answered with a success whose detection list is
    empty, and the classifier is not called. *)
Theorem predict_no_detections (np : NumpyArgsort)
    (cv2 : option CV2) (pil_open_rgb : list Byte.byte -> outcome PILImage)
    (dm : Detector) (cm : Classifier) (file : UploadFile) (pil_img : PILImage)
    (det_conf det_iou : Q) (cls_imgsz cls_topk max_dets : Z) :
  pil_open_rgb (file_bytes file) = Ok pil_img ->
  detected (det_predict dm pil_img DEVICE 1024 det_conf det_iou max_dets)
    = [] ->
  predict np cv2 pil_open_rgb (Some dm) (Some cm) file det_conf det_iou
    cls_imgsz cls_topk max_dets =
  (Ok (Success (filename file) (width pil_img, height pil_img) []), []).
Proof.
  intros Hopen Hnone. unfold predict, read_image. rewrite Hopen.
  unfold lift, bind, ret, detected in *.
  by destruct (boxes _) as [[|b bs]|].
Qed.

(** ** The theorems on the concrete run *)





Lemma predict_no_detections_witness :
  predict stable_argsort None test_open (Some (test_detector (Some [])))
    (Some test_classifier) test_file 0.2 0.7 1024 3 50 =
  (Ok (Success (Some "screws.jpg") (200, 200) []), []).
Proof.
  apply (predict_no_detections stable_argsort None test_open
           (test_detector (Some [])) test_classifier test_file test_image
           0.2 0.7 1024 3 50); reflexivity.
Defined.

(** * Further properties of the code *)

(** ** [clip_box], one axis at a time *)

Lemma clip_axis_bounds (v1 v2 n : Z) :
  1 <= n ->
  0 <= fst (clip_axis v1 v2 n) /\
  fst (clip_axis v1 v2 n) <= snd (clip_axis v1 v2 n) /\
  snd (clip_axis v1 v2 n) <= n - 1.
Proof.
  intros Hn. unfold clip_axis. cbn [fst snd].
  destruct (Z.leb_spec (Z.max 0 (Z.min v2 (n - 1)))
              (Z.max 0 (Z.min v1 (n - 1)))); lia.
Qed.

Lemma clip_axis_fixed (a c n : Z) :
  0 <= a -> a < c -> c <= n - 1 -> clip_axis a c n = (a, c).
Proof.
  intros Ha Hac Hc. unfold clip_axis.
  destruct (Z.leb_spec (Z.max 0 (Z.min c (n - 1)))
              (Z.max 0 (Z.min a (n - 1)))); f_equal; lia.
Qed.

Lemma clip_axis_before (v1 v2 n : Z) :
  2 <= n -> v1 <= 0 -> v2 <= 0 -> clip_axis v1 v2 n = (0, 1).
Proof.
  intros Hn H1 H2. unfold clip_axis.
  destruct (Z.leb_spec (Z.max 0 (Z.min v2 (n - 1)))
              (Z.max 0 (Z.min v1 (n - 1)))); f_equal; lia.
Qed.

Lemma clip_axis_after (v1 v2 n : Z) :
  1 <= n -> n - 1 <= v1 -> clip_axis v1 v2 n = (n - 1, n - 1).
Proof.
  intros Hn H1. unfold clip_axis.
  destruct (Z.leb_spec (Z.max 0 (Z.min v2 (n - 1)))
              (Z.max 0 (Z.min v1 (n - 1)))); f_equal; lia.
Qed.

(** X1.  A box with integer coordinates that already meets the clipped-box
    invariant is returned unchanged. *)
Theorem clip_box_fixed_point (x1 y1 x2 y2 w h : Z) :
  strictly_inside w h (x1, y1, x2, y2) ->
  clip_box (py_num x1) (py_num y1) (py_num x2) (py_num y2) w h
  = (x1, y1, x2, y2).
Proof.
  intros [(Hx1 & Hx & Hx2) (Hy1 & Hy & Hy2)].
  rewrite clip_box_by_axis, !py_int_num.
  by rewrite (clip_axis_fixed x1 x2 w), (clip_axis_fixed y1 y2 h).
Qed.

Lemma clip_box_fixed_point_witness :
  clip_box (py_num 3) (py_num 4) (py_num 10) (py_num 5) 20 20
  = (3, 4, 10, 5).
Proof.
  apply (clip_box_fixed_point 3 4 10 5 20 20).
  unfold strictly_inside. lia.
Defined.

(** X2.  On an image of width and height at least 2: a box that lies
    before the origin on an axis is clipped to the first pixel of that axis,
    [(0, 1)]; a box that starts on or after the last pixel of an axis is
    clipped to zero extent there, [(n-1, n-1)]. *)
Theorem clip_box_off_image (x1 y1 x2 y2 : Q) (w h : Z) :
  2 <= w -> 2 <= h ->
  let '(cx1, cy1, cx2, cy2) := clip_box x1 y1 x2 y2 w h in
  (py_int x1 <= 0 -> py_int x2 <= 0 -> cx1 = 0 /\ cx2 = 1) /\
  (w - 1 <= py_int x1 -> cx1 = w - 1 /\ cx2 = w - 1) /\
  (py_int y1 <= 0 -> py_int y2 <= 0 -> cy1 = 0 /\ cy2 = 1) /\
  (h - 1 <= py_int y1 -> cy1 = h - 1 /\ cy2 = h - 1).
Proof.
  intros Hw Hh. rewrite clip_box_by_axis. repeat split; intros.
  all: first [ by rewrite clip_axis_before
             | by rewrite clip_axis_after by lia ].
Qed.

Lemma clip_box_off_image_witness :
  let '(cx1, cy1, cx2, cy2) := clip_box (-30) 500 (-10) 600 200 100 in
  (py_int (-30) <= 0 -> py_int (-10) <= 0 -> cx1 = 0 /\ cx2 = 1) /\
  (200 - 1 <= py_int (-30) -> cx1 = 200 - 1 /\ cx2 = 200 - 1) /\
  (py_int 500 <= 0 -> py_int 600 <= 0 -> cy1 = 0 /\ cy2 = 1) /\
  (100 - 1 <= py_int 500 -> cy1 = 100 - 1 /\ cy2 = 100 - 1).
Proof. apply (clip_box_off_image (-30) 500 (-10) 600 200 100); lia. Defined.

(** ** Slices and crops *)

Lemma slice_bound_inside (i n : Z) : 0 <= i -> i <= n -> slice_bound i n = i.
Proof.
  intros H0 Hn. unfold slice_bound. destruct (Z.ltb_spec i 0); lia.
Qed.

Lemma nd_slice_inside (a : ndarray) (y1 y2 x1 x2 : Z) :
  0 <= y1 -> y1 <= y2 -> y2 <= shape_h a ->
  0 <= x1 -> x1 <= x2 -> x2 <= shape_w a ->
  nd_slice a y1 y2 x1 x2 =
  {| shape_h := y2 - y1; shape_w := x2 - x1;
     px := fun r c => px a (y1 + r) (x1 + c) |}.
Proof.
  intros. unfold nd_slice.
  rewrite !slice_bound_inside by lia. f_equal; lia.
Qed.

(** The slice of an image by a clipped box is a window that starts at the
    box's corner. *)
Lemma clip_slice_window (img : ndarray) (x1 y1 x2 y2 : Q) :
  1 <= shape_w img -> 1 <= shape_h img ->
  let '(cx1, cy1, cx2, cy2) :=
    clip_box x1 y1 x2 y2 (shape_w img) (shape_h img) in
  nd_slice img cy1 cy2 cx1 cx2 =
  {| shape_h := cy2 - cy1; shape_w := cx2 - cx1;
     px := fun r c => px img (cy1 + r) (cx1 + c) |} /\
  window_at img (nd_slice img cy1 cy2 cx1 cx2) cy1 cx1.
Proof.
  intros Hw Hh.
  pose proof (clip_box_bounds x1 y1 x2 y2 _ _ Hw Hh) as Hin.
  destruct (clip_box x1 y1 x2 y2 (shape_w img) (shape_h img))
    as [[[cx1 cy1] cx2] cy2].
  destruct Hin as [(Hx1 & Hx & Hx2) (Hy1 & Hy & Hy2)].
  assert (nd_slice img cy1 cy2 cx1 cx2 =
          {| shape_h := cy2 - cy1; shape_w := cx2 - cx1;
             px := fun r c => px img (cy1 + r) (cx1 + c) |}) as E
    by (apply nd_slice_inside; lia).
  split; [exact E|]. rewrite E. unfold window_at. simpl.
  repeat split; lia.
Qed.

(** X3.  On an image of width and height at least 1, [crop_rgb] returns the
    view of the image under the clipped box, rows [y1..y2-1] and columns
    [x1..x2-1]; the view never holds the last row or the last column of the
    image. *)
Theorem crop_rgb_window (img : ndarray) (x1 y1 x2 y2 : Q) :
  1 <= shape_w img -> 1 <= shape_h img ->
  let '(cx1, cy1, cx2, cy2) :=
    clip_box x1 y1 x2 y2 (shape_w img) (shape_h img) in
  crop_rgb img (x1, y1, x2, y2) =
  {| shape_h := cy2 - cy1; shape_w := cx2 - cx1;
     px := fun r c => px img (cy1 + r) (cx1 + c) |} /\
  window_at img (crop_rgb img (x1, y1, x2, y2)) cy1 cx1.
Proof.
  intros Hw Hh. pose proof (clip_slice_window img x1 y1 x2 y2 Hw Hh) as H.
  unfold crop_rgb.
  by destruct (clip_box x1 y1 x2 y2 (shape_w img) (shape_h img))
    as [[[cx1 cy1] cx2] cy2].
Qed.

Lemma crop_rgb_window_witness :
  crop_rgb (blank_image 100 80) (90, 70, 120, 120)%Q =
  {| shape_h := 79 - 70; shape_w := 99 - 90;
     px := fun r c => px (blank_image 100 80) (70 + r) (90 + c) |} /\
  window_at (blank_image 100 80)
    (crop_rgb (blank_image 100 80) (90, 70, 120, 120)%Q) 70 90.
Proof.
  apply (crop_rgb_window (blank_image 100 80) 90 70 120 120); simpl; lia.
Defined.

Lemma clip_box_reclip (x1 y1 x2 y2 : Q) (w h cx1 cy1 cx2 cy2 : Z) :
  clip_box x1 y1 x2 y2 w h = (cx1, cy1, cx2, cy2) ->
  clip_box (py_num cx1) (py_num cy1) (py_num cx2) (py_num cy2) w h
  = (cx1, cy1, cx2, cy2).
Proof.
  intros E.
  assert (let '(a, b, c, d) := clip_box x1 y1 x2 y2 w h in
          clip_box (py_num a) (py_num b) (py_num c) (py_num d) w h
          = (a, b, c, d)) as H.
  { rewrite (clip_box_by_axis x1 y1 x2 y2 w h). cbv beta iota.
    by rewrite clip_box_by_axis, !py_int_num, !clip_axis_idempotent. }
  by rewrite E in H.
Qed.

(** X5.  When the longer side of the clipped box is below 2,
    [head_square_crop] returns what [crop_rgb] returns on the same box. *)
Theorem head_square_crop_fallback (img : ndarray) (x1 y1 x2 y2 : Q) :
  let '(cx1, cy1, cx2, cy2) :=
    clip_box x1 y1 x2 y2 (shape_w img) (shape_h img) in
  Z.max (cx2 - cx1) (cy2 - cy1) < 2 ->
  head_square_crop img (x1, y1, x2, y2) = crop_rgb img (x1, y1, x2, y2).
Proof.
  unfold head_square_crop, crop_rgb.
  destruct (clip_box x1 y1 x2 y2 (shape_w img) (shape_h img))
    as [[[cx1 cy1] cx2] cy2] eqn:E.
  intros Hside. destruct (Z.ltb_spec (Z.max (cx2 - cx1) (cy2 - cy1)) 2);
    [|lia].
  by rewrite (clip_box_reclip _ _ _ _ _ _ _ _ _ _ E).
Qed.

Lemma head_square_crop_fallback_witness :
  head_square_crop (blank_image 200 200) (50, 50, 50, 50)%Q
  = crop_rgb (blank_image 200 200) (50, 50, 50, 50)%Q.
Proof.
  apply (head_square_crop_fallback (blank_image 200 200) 50 50 50 50).
  vm_compute. reflexivity.
Defined.

Lemma head_square_crop_view (img : ndarray) (box : Q * Q * Q * Q) :
  1 <= shape_w img -> 1 <= shape_h img ->
  exists r0 c0, window_at img (head_square_crop img box) r0 c0.
Proof.
  intros Hw Hh. destruct box as [[[x1 y1] x2] y2]. unfold head_square_crop.
  destruct (clip_box x1 y1 x2 y2 (shape_w img) (shape_h img))
    as [[[cx1 cy1] cx2] cy2] eqn:E.
  destruct (Z.max (cx2 - cx1) (cy2 - cy1) <? 2).
  - unfold crop_rgb.
    pose proof (clip_slice_window img (py_num cx1) (py_num cy1) (py_num cx2)
                  (py_num cy2) Hw Hh) as H.
    destruct (clip_box (py_num cx1) (py_num cy1) (py_num cx2) (py_num cy2)
                (shape_w img) (shape_h img)) as [[[a b] c] d].
    exists b, a. apply H.
  - destruct (head_square cx1 cy1 cx2 cy2 (Z.max (cx2 - cx1) (cy2 - cy1)))
      as [[[nx1 ny1] nx2] ny2].
    pose proof (clip_slice_window img (py_num nx1) (py_num ny1) (py_num nx2)
                  (py_num ny2) Hw Hh) as H.
    destruct (clip_box (py_num nx1) (py_num ny1) (py_num nx2) (py_num ny2)
                (shape_w img) (shape_h img)) as [[[a b] c] d].
    exists b, a. apply H.
Qed.

(** X8.  On an image of width and height at least 1, whatever the box,
    [head_square_crop] returns a view of the image: all of its pixels are
    pixels of the image, and none comes from the last row or the last
    column. *)
Theorem head_square_crop_window (img : ndarray) (x1 y1 x2 y2 : Q) :
  1 <= shape_w img -> 1 <= shape_h img ->
  exists r0 c0, window_at img (head_square_crop img (x1, y1, x2, y2)) r0 c0.
Proof. apply head_square_crop_view. Qed.

Lemma head_square_crop_window_witness :
  exists r0 c0,
    window_at (blank_image 100 80)
      (head_square_crop (blank_image 100 80) (90, 70, 120, 120)%Q) r0 c0.
Proof.
  apply (head_square_crop_window (blank_image 100 80) 90 70 120 120);
    simpl; lia.
Defined.

(** ** The head square in integer arithmetic *)

Lemma py_int_half (n : Z) : 0 <= n -> py_int (py_num n / 2) = n / 2.
Proof.
  intros Hn. unfold py_int, py_num. cbn -[Z.mul Z.quot Z.div].
  rewrite Z.quot_div_nonneg by lia. f_equal. lia.
Qed.

Lemma py_int_head_bias (y bh : Z) :
  0 <= y -> 0 <= bh ->
  py_int (py_num y + py_num bh * 0.45) = y + 9 * bh / 20.
Proof.
  intros Hy Hbh. unfold py_int, py_num. cbn -[Z.mul Z.add Z.quot Z.div].
  rewrite Z.quot_div_nonneg by lia. Z.div_mod_to_equations. lia.
Qed.

Lemma py_int_pad (side : Z) :
  0 <= side -> py_int (py_num side * 0.05) = side / 20.
Proof.
  intros Hs. unfold py_int, py_num. cbn -[Z.mul Z.add Z.quot Z.div].
  rewrite Z.quot_div_nonneg by lia. Z.div_mod_to_equations. lia.
Qed.

Lemma head_square_by_division (x1 y1 x2 y2 side : Z) :
  0 <= x1 + x2 -> 0 <= y1 -> y1 <= y2 -> 0 <= side ->
  head_square x1 y1 x2 y2 side =
  ((x1 + x2) / 2 - (side + 2 * (side / 20)),
   y1 + 9 * (y2 - y1) / 20 - (side + 2 * (side / 20)),
   (x1 + x2) / 2,
   y1 + 9 * (y2 - y1) / 20).
Proof.
  intros Hx Hy1 Hy Hs. unfold head_square.
  rewrite py_int_half, py_int_head_bias, py_int_pad by lia.
  cbv zeta.
  repeat match goal with
         | |- (_, _) = (_, _) => f_equal
         end; lia.
Qed.

(** X4.  On non-negative coordinates with [y1 <= y2] and a non-negative
    [side], the square of [head_square_crop] is given by integer divisions:
    [cx = (x1+x2) div 2], [cy = y1 + (9*bh) div 20], [pad = side div 20],
    and the square is [(cx - side2, cy - side2, cx, cy)] with
    [side2 = side + 2*pad]. *)
Theorem head_square_integer_form (x1 y1 x2 y2 side : Z) :
  0 <= x1 + x2 -> 0 <= y1 -> y1 <= y2 -> 0 <= side ->
  let cx := (x1 + x2) / 2 in
  let cy := y1 + 9 * (y2 - y1) / 20 in
  let side2 := side + 2 * (side / 20) in
  head_square x1 y1 x2 y2 side = (cx - side2, cy - side2, cx, cy).
Proof.
  intros Hx Hy1 Hy Hs. unfold head_square.
  rewrite py_int_half, py_int_head_bias, py_int_pad by lia.
  cbv zeta.
  repeat match goal with
         | |- (_, _) = (_, _) => f_equal
         end; lia.
Qed.

Lemma head_square_integer_form_witness :
  head_square 10 20 40 80 60 = (25 - 66, 47 - 66, 25, 47).
Proof. apply (head_square_integer_form 10 20 40 80 60); lia. Defined.

Lemma clip_axis_square (c s n : Z) :
  1 <= c -> c <= n - 1 -> 2 <= s ->
  clip_axis (c - s) c n = (Z.max 0 (c - s), c).
Proof.
  intros Hc Hn Hs. unfold clip_axis.
  destruct (Z.leb_spec (Z.max 0 (Z.min c (n - 1)))
              (Z.max 0 (Z.min (c - s) (n - 1)))); f_equal; lia.
Qed.

Lemma clip_axis_square_extent (c s n : Z) :
  2 <= n -> 0 <= c -> c <= n - 1 -> 2 <= s ->
  0 <= fst (clip_axis (c - s) c n) /\
  fst (clip_axis (c - s) c n) < snd (clip_axis (c - s) c n) /\
  snd (clip_axis (c - s) c n) <= n - 1 /\
  snd (clip_axis (c - s) c n) - fst (clip_axis (c - s) c n) <= s.
Proof.
  intros Hn Hc Hcn Hs. unfold clip_axis. cbn [fst snd].
  destruct (Z.leb_spec (Z.max 0 (Z.min c (n - 1)))
              (Z.max 0 (Z.min (c - s) (n - 1)))); lia.
Qed.

(** With a longer side of at least 2, the crop is the slice of the image by
    the square clipped along each axis. *)
Lemma head_square_crop_by_axis (img : ndarray) (x1 y1 x2 y2 : Q) :
  1 <= shape_w img -> 1 <= shape_h img ->
  let '(cx1, cy1, cx2, cy2) :=
    clip_box x1 y1 x2 y2 (shape_w img) (shape_h img) in
  let side := Z.max (cx2 - cx1) (cy2 - cy1) in
  let cx := (cx1 + cx2) / 2 in
  let cy := cy1 + 9 * (cy2 - cy1) / 20 in
  let side2 := side + 2 * (side / 20) in
  2 <= side ->
  (0 <= cx /\ cx <= shape_w img - 1) /\ (0 <= cy /\ cy <= shape_h img - 1) /\
  side <= side2 /\
  head_square_crop img (x1, y1, x2, y2) =
  nd_slice img
    (fst (clip_axis (cy - side2) cy (shape_h img)))
    (snd (clip_axis (cy - side2) cy (shape_h img)))
    (fst (clip_axis (cx - side2) cx (shape_w img)))
    (snd (clip_axis (cx - side2) cx (shape_w img))).
Proof.
  intros Hw Hh.
  pose proof (clip_box_bounds x1 y1 x2 y2 _ _ Hw Hh) as Hin.
  unfold head_square_crop.
  destruct (clip_box x1 y1 x2 y2 (shape_w img) (shape_h img))
    as [[[cx1 cy1] cx2] cy2].
  destruct Hin as [(Hx1 & Hx & Hx2) (Hy1 & Hy & Hy2)].
  cbv zeta. intros Hside.
  destruct (Z.ltb_spec (Z.max (cx2 - cx1) (cy2 - cy1)) 2); [lia|].
  rewrite head_square_by_division by lia.
  rewrite clip_box_by_axis, !py_int_num.
  repeat split; try reflexivity.
  all: Z.div_mod_to_equations; lia.
Qed.

(** X6.  On an image of width and height at least 1, for a box whose
    clipped longer side is at least 2 and whose anchors [cx] and [cy] are at
    least 1, the crop is exactly the rows [max(0, cy - side2) .. cy - 1] and
    the columns [max(0, cx - side2) .. cx - 1] of the image: it ends at the
    horizontal middle of the box and at 45% of its height, and it is
    [min(cx, side2)] wide and [min(cy, side2)] high. *)
Theorem head_square_crop_exact (img : ndarray) (x1 y1 x2 y2 : Q) :
  1 <= shape_w img -> 1 <= shape_h img ->
  let '(cx1, cy1, cx2, cy2) :=
    clip_box x1 y1 x2 y2 (shape_w img) (shape_h img) in
  let side := Z.max (cx2 - cx1) (cy2 - cy1) in
  let cx := (cx1 + cx2) / 2 in
  let cy := cy1 + 9 * (cy2 - cy1) / 20 in
  let side2 := side + 2 * (side / 20) in
  2 <= side -> 1 <= cx -> 1 <= cy ->
  head_square_crop img (x1, y1, x2, y2) =
  {| shape_h := Z.min cy side2; shape_w := Z.min cx side2;
     px := fun r c =>
             px img (Z.max 0 (cy - side2) + r) (Z.max 0 (cx - side2) + c) |}.
Proof.
  intros Hw Hh.
  pose proof (head_square_crop_by_axis img x1 y1 x2 y2 Hw Hh) as H.
  destruct (clip_box x1 y1 x2 y2 (shape_w img) (shape_h img))
    as [[[cx1 cy1] cx2] cy2].
  cbv zeta in *. intros Hside Hcx Hcy.
  destruct (H Hside) as ([_ Hcxw] & [_ Hcyh] & Hs2 & ->).
  rewrite !clip_axis_square by lia. cbn [fst snd].
  rewrite nd_slice_inside by lia. f_equal; lia.
Qed.

Lemma head_square_crop_exact_witness :
  head_square_crop (blank_image 100 100) (10, 20, 40, 80)%Q =
  {| shape_h := Z.min 47 66; shape_w := Z.min 25 66;
     px := fun r c =>
             px (blank_image 100 100)
               (Z.max 0 (47 - 66) + r) (Z.max 0 (25 - 66) + c) |}.
Proof.
  apply (head_square_crop_exact (blank_image 100 100) 10 20 40 80);
    vm_compute; discriminate.
Defined.

(** X7.  On an image of width and height at least 2, for a box whose
    clipped longer side is at least 2, the crop is never empty and never
    larger than the square: its width and its height are between 1 and
    [side2]. *)
Theorem head_square_crop_extent (img : ndarray) (x1 y1 x2 y2 : Q) :
  2 <= shape_w img -> 2 <= shape_h img ->
  let '(cx1, cy1, cx2, cy2) :=
    clip_box x1 y1 x2 y2 (shape_w img) (shape_h img) in
  let side := Z.max (cx2 - cx1) (cy2 - cy1) in
  let side2 := side + 2 * (side / 20) in
  2 <= side ->
  let crop := head_square_crop img (x1, y1, x2, y2) in
  (1 <= shape_w crop /\ shape_w crop <= side2) /\
  (1 <= shape_h crop /\ shape_h crop <= side2).
Proof.
  intros Hw Hh.
  pose proof (head_square_crop_by_axis img x1 y1 x2 y2
                ltac:(lia) ltac:(lia)) as H.
  destruct (clip_box x1 y1 x2 y2 (shape_w img) (shape_h img))
    as [[[cx1 cy1] cx2] cy2].
  cbv zeta in *. intros Hside.
  destruct (H Hside) as ([Hcx Hcxw] & [Hcy Hcyh] & Hs2 & ->).
  set (cx := (cx1 + cx2) / 2) in *.
  set (cy := cy1 + 9 * (cy2 - cy1) / 20) in *.
  set (s2 := Z.max (cx2 - cx1) (cy2 - cy1)
             + 2 * (Z.max (cx2 - cx1) (cy2 - cy1) / 20)) in *.
  pose proof (clip_axis_square_extent cx s2 (shape_w img)
                ltac:(lia) ltac:(lia) ltac:(lia) ltac:(lia)) as Hx.
  pose proof (clip_axis_square_extent cy s2 (shape_h img)
                ltac:(lia) ltac:(lia) ltac:(lia) ltac:(lia)) as Hy.
  rewrite nd_slice_inside by lia. cbn [shape_w shape_h]. lia.
Qed.

Lemma head_square_crop_extent_witness :
  let crop := head_square_crop (blank_image 200 200) (0, 0, 1, 4)%Q in
  (1 <= shape_w crop /\ shape_w crop <= 4) /\
  (1 <= shape_h crop /\ shape_h crop <= 4).
Proof.
  apply (head_square_crop_extent (blank_image 200 200) 0 0 1 4);
    vm_compute; discriminate.
Defined.

(** ** [aggregate] on any classifier answer *)

Lemma omap_raise_inv {A B} (f : A -> outcome B) (l : list A) (e : exn) :
  omap f l = Raise e -> exists x, x ∈ l /\ f x = Raise e.
Proof.
  induction l as [|x l IH]; simpl; [done|].
  destruct (f x) as [y|e'] eqn:Hx; simpl.
  - destruct (omap f l) as [ys|e'']; simpl; [done|].
    intros [= ->]. destruct (IH eq_refl) as (z & Hz & Hfz).
    exists z. split; [by right|done].
  - intros [= ->]. exists x. split; [by left|done].
Qed.

Lemma omap_ok_inv {A B} (f : A -> outcome B) (l : list A) (ys : list B) :
  omap f l = Ok ys -> Forall2 (fun x y => f x = Ok y) l ys.
Proof.
  revert ys. induction l as [|x l IH]; simpl; intros ys.
  - intros [= <-]. constructor.
  - destruct (f x) as [y|e'] eqn:Hx; simpl; [|done].
    destruct (omap f l) as [ys'|e'']; simpl; [|done].
    intros [= <-]. constructor; [done|by apply IH].
Qed.

Lemma top_entry_raise_inv (names : gmap Z string) (p : list Q) (i : nat)
    (e : exn) :
  (i < length p)%nat -> top_entry names p i = Raise e ->
  e = KeyError /\ names !! Z.of_nat i = None.
Proof.
  intros Hi. apply lookup_lt_is_Some_2 in Hi as [c Hc].
  unfold top_entry, dict_getitem, array_getitem. rewrite Hc.
  destruct (names !! Z.of_nat i); simpl; [done|]. by intros [= <-].
Qed.

Lemma top_entry_ok_inv (names : gmap Z string) (p : list Q) (i : nat)
    (t : TopEntry) :
  top_entry names p i = Ok t ->
  names !! Z.of_nat i = Some (label t) /\ p !! i = Some (confidence t).
Proof.
  unfold top_entry, dict_getitem, array_getitem.
  destruct (names !! Z.of_nat i); simpl; [|done].
  destruct (p !! i); simpl; [|done]. by intros [= <-].
Qed.

Lemma aggregate_raise_inv (np : NumpyArgsort) (res : ClsResults) (k : Z)
    (e : exn) :
  aggregate np res k = Raise e ->
  e = KeyError /\
  exists p i, probs res = Some p /\ i ∈ top_indices np p k /\
              names res !! Z.of_nat i = None.
Proof.
  unfold aggregate.
  destruct (probs res) as [p|] eqn:Hp; [|done]. cbv zeta.
  destruct (omap _ _) as [ys|e'] eqn:Ho; simpl; [done|]. intros [= ->].
  apply omap_raise_inv in Ho as (i & Hi & Hr).
  apply top_entry_raise_inv in Hr as [-> Hn];
    [|by eapply top_indices_in_range].
  split; [done|]. by exists p, i.
Qed.

(** X9.  [aggregate] raises exactly when a selected class index has no
    entry in the classifier's label table, and what it raises is then
    [KeyError]: reading the probability of a selected index never fails,
    whatever [topk] is. *)
Theorem aggregate_raises_iff (np : NumpyArgsort) (res : ClsResults) (k : Z)
    (e : exn) :
  aggregate np res k = Raise e <->
  e = KeyError /\
  exists p i, probs res = Some p /\ i ∈ top_indices np p k /\
              names res !! Z.of_nat i = None.
Proof.
  split; [apply aggregate_raise_inv|]. unfold aggregate.
  - intros (-> & p & i & -> & Hi & Hn). cbv zeta.
    destruct (omap _ _) as [ys|e'] eqn:Ho; simpl.
    + apply omap_ok_inv in Ho.
      apply list_elem_of_lookup_1 in Hi as [n Hn'].
      destruct (Forall2_lookup_l _ _ _ _ _ Ho Hn') as (t & _ & Ht).
      apply top_entry_ok_inv in Ht as [Ht _]. congruence.
    + apply omap_raise_inv in Ho as (j & Hj & Hr).
      apply top_entry_raise_inv in Hr as [-> _];
        [done|by eapply top_indices_in_range].
Qed.

(** X10.  Whenever [aggregate] returns on a probability vector, the
    elements of [topk] follow the selected indices one for one, and each
    carries the label and the probability of the same class. *)
Theorem aggregate_entries_paired (np : NumpyArgsort) (res : ClsResults)
    (p : list Q) (k : Z) (out : ClsOut) :
  probs res = Some p -> aggregate np res k = Ok out ->
  Forall2 (fun i t => names res !! Z.of_nat i = Some (label t) /\
                      p !! i = Some (confidence t))
    (top_indices np p k) (topk out).
Proof.
  intros Hp. unfold aggregate. rewrite Hp. cbv zeta.
  destruct (omap _ _) as [ys|e'] eqn:Ho; simpl; [|done]. intros [= <-].
  simpl. apply omap_ok_inv in Ho.
  eapply Forall2_impl; [exact Ho|].
  intros i t Ht. by apply top_entry_ok_inv.
Qed.

Lemma aggregate_entries_paired_witness :
  Forall2 (fun i t =>
             ({[ 0 := "m3"; 1 := "m4"; 2 := "m5" ]} : gmap Z string)
               !! Z.of_nat i = Some (label t) /\
             [0.2; 0.5; 0.3]%Q !! i = Some (confidence t))
    (top_indices stable_argsort [0.2; 0.5; 0.3]%Q 2)
    [ {| label := "m4"; confidence := 0.5%Q |};
      {| label := "m5"; confidence := 0.3%Q |} ].
Proof.
  refine (aggregate_entries_paired stable_argsort
            {| probs := Some [0.2; 0.5; 0.3]%Q;
               names := {[ 0 := "m3"; 1 := "m4"; 2 := "m5" ]} |}
            [0.2; 0.5; 0.3]%Q 2
            {| cls_label := Some "m4"; cls_confidence := Some 0.5%Q;
               topk := [ {| label := "m4"; confidence := 0.5%Q |};
                         {| label := "m5"; confidence := 0.3%Q |} ] |} _ _);
    reflexivity.
Defined.

(** X11.  With labels for every class, a non-empty probability vector and
    [topk >= 1], the top-level label and confidence are those of a class of
    maximal probability. *)
Theorem aggregate_best_is_argmax (np : NumpyArgsort) (res : ClsResults)
    (p : list Q) (k : Z) :
  probs res = Some p -> names_cover res -> 1 <= k -> p <> [] ->
  exists out i,
    aggregate np res k = Ok out /\
    (i < length p)%nat /\
    cls_label out = names res !! Z.of_nat i /\
    cls_confidence out = p !! i /\
    (forall j, (j < length p)%nat -> (key p j <= key p i)%Q).
Proof.
  intros Hp Hn Hk Hne.
  pose proof (aggregate_ok np res p k Hp Hn) as Ha. cbv zeta in Ha.
  pose proof (argsort_neg_sorted np p) as Hs.
  pose proof (argsort_length np (Qopp <$> p)) as Hlen.
  assert (forall j, (j < length p)%nat -> j ∈ argsort np (Qopp <$> p)) as Hall.
  { intros j Hj. apply argsort_elem_of. by rewrite length_fmap. }
  assert (forall j, j ∈ argsort np (Qopp <$> p) -> (j < length p)%nat) as Hin.
  { intros j Hj. apply argsort_elem_of in Hj. by rewrite length_fmap in Hj. }
  unfold top_indices in Ha. rewrite py_take_nonneg in Ha by lia.
  rewrite length_fmap in Hlen.
  destruct (argsort np (Qopp <$> p)) as [|i tl].
  { destruct p; [done|simpl in Hlen; lia]. }
  destruct (Z.to_nat k) as [|n] eqn:Hn'; [lia|]. simpl in Ha.
  assert (i < length p)%nat as Hi by (apply Hin; left).
  eexists _, i. split; [exact Ha|]. simpl.
  destruct (Hn p Hp i Hi) as [l Hl].
  destruct (lookup_lt_is_Some_2 p i Hi) as [c Hc].
  unfold key at 1. rewrite Hl, Hc. simpl. repeat split; try done.
  intros j Hj. apply Hall in Hj.
  apply StronglySorted_inv in Hs as [_ Hs].
  apply elem_of_cons in Hj as [->|Hj]; [apply Qle_refl|].
  rewrite Forall_forall in Hs. by apply Hs.
Qed.

Lemma aggregate_best_is_argmax_witness :
  exists out i,
    aggregate unstable_argsort
      {| probs := Some [0.2; 0.5; 0.3]%Q;
         names := {[ 0 := "m3"; 1 := "m4"; 2 := "m5" ]} |} 2 = Ok out /\
    (i < 3)%nat /\
    cls_label out
      = ({[ 0 := "m3"; 1 := "m4"; 2 := "m5" ]} : gmap Z string) !! Z.of_nat i /\
    cls_confidence out = [0.2; 0.5; 0.3]%Q !! i /\
    (forall j, (j < 3)%nat ->
       (key [0.2; 0.5; 0.3] j <= key [0.2; 0.5; 0.3] i)%Q).
Proof.
  refine (aggregate_best_is_argmax unstable_argsort
            {| probs := Some [0.2; 0.5; 0.3]%Q;
               names := {[ 0 := "m3"; 1 := "m4"; 2 := "m5" ]} |}
            [0.2; 0.5; 0.3]%Q 2 _ _ _ _).
  - reflexivity.
  - intros p [= <-] i Hi. simpl in Hi.
    destruct i as [|[|[|i]]]; [by eexists ..|lia].
  - lia.
  - discriminate.
Defined.

Lemma top_indices_nil_iff (np : NumpyArgsort) (p : list Q) (k : Z) :
  top_indices np p k = [] <->
  p = [] \/ k = 0 \/ k <= - Z.of_nat (length p).
Proof.
  unfold top_indices, py_take.
  pose proof (argsort_length np (Qopp <$> p)) as Hlen.
  rewrite length_fmap in Hlen.
  rewrite <- (length_zero_iff_nil p).
  destruct (Z.ltb_spec k 0);
    rewrite <- length_zero_iff_nil, length_take, Hlen; lia.
Qed.

(** X12.  [aggregate] returns the null result (no label, no confidence, an
    empty [topk]) exactly when the classifier gave no probabilities or when
    the slice [[:topk]] selects nothing: the vector is empty, [topk] is 0, or
    [topk <= -len(p)]. *)
Theorem aggregate_null_iff (np : NumpyArgsort) (res : ClsResults) (k : Z) :
  aggregate np res k = Ok null_result <->
  probs res = None \/
  exists p, probs res = Some p /\
            (p = [] \/ k = 0 \/ k <= - Z.of_nat (length p)).
Proof.
  unfold aggregate.
  destruct (probs res) as [p|] eqn:Hp; cbv zeta.
  - split.
    + destruct (omap _ _) as [ys|e'] eqn:Ho; simpl; [|done].
      intros [= Hl Hc ->]. apply omap_ok_inv in Ho.
      apply Forall2_nil_inv_r in Ho. right. exists p. split; [done|].
      by apply (top_indices_nil_iff np).
    + intros [|(p' & [= <-] & H)]; [done|].
      apply (top_indices_nil_iff np) in H. by rewrite H.
  - split; [by left|done].
Qed.

(** ** The [/predict] loop on any classifier *)

Lemma enhance_raise_inv (cv2 : option CV2) (crop : ndarray) (e : exn) :
  enhance_for_cls cv2 crop = Raise e -> e = CvError.
Proof.
  destruct cv2 as [cv|]; simpl; [|done].
  destruct (cvtColor_RGB2LAB cv crop) as [lab|]; simpl; [|by intros [= <-]].
  destruct (split cv lab) as [[[l a] b]|]; simpl; [|by intros [= <-]].
  destruct (CLAHE_apply cv _ (8, 8) l) as [cl|]; simpl; [|by intros [= <-]].
  destruct (merge cv (cl, a, b)) as [limg|]; simpl; [|by intros [= <-]].
  destruct (cvtColor_LAB2RGB cv limg); simpl; [done|by intros [= <-]].
Qed.

Lemma enhance_empty (cv : CV2) (crop : ndarray) :
  nd_empty crop = true -> enhance_for_cls (Some cv) crop = Raise CvError.
Proof. intros He. simpl. by rewrite (cvtColor_empty cv crop He). Qed.

Section PredictAny.

Variable np : NumpyArgsort.
Variable cv2 : option CV2.
Variable pil_open_rgb : list Byte.byte -> outcome PILImage.

Lemma classify_crop_loaded (m : Classifier) (crop : ndarray)
    (imgsz topk : Z) :
  classify_crop np (Some m) crop imgsz topk =
  (aggregate np (cls_predict m crop DEVICE imgsz) topk,
   [call_of imgsz crop]).
Proof. reflexivity. Qed.

Lemma answer_of_raise_inv (m : Classifier) (np_img : ndarray)
    (imgsz topk : Z) (b : Box) (e : exn) :
  answer_of np cv2 m np_img imgsz topk b = Raise e ->
  e = KeyError \/ e = CvError.
Proof.
  unfold answer_of, crop_of_box.
  destruct (enhance_for_cls cv2 _) as [crop|e'] eqn:Hc; simpl.
  - intros Ha. apply aggregate_raise_inv in Ha as [-> _]. by left.
  - intros [= <-]. right. by apply enhance_raise_inv in Hc.
Qed.

Lemma predict_loop_cons_ok (m : Classifier) (np_img : ndarray)
    (names : gmap Z string) (imgsz topk : Z) (b : Box) (bs : list Box)
    (out : list Entry) (c : ClsOut) :
  answer_of np cv2 m np_img imgsz topk b = Ok c ->
  predict_loop np cv2 (Some m) np_img names imgsz topk (b :: bs) out =
  (fst (predict_loop np cv2 (Some m) np_img names imgsz topk bs
          (out ++ [{| det := det_of_box names b; cls := c |}])),
   box_calls cv2 np_img imgsz b ++
   snd (predict_loop np cv2 (Some m) np_img names imgsz topk bs
          (out ++ [{| det := det_of_box names b; cls := c |}]))).
Proof.
  unfold answer_of, box_calls.
  destruct (crop_of_box cv2 np_img b) as [crop|e] eqn:Hb; cbn [obind];
    [|done].
  intros Hc. cbn [predict_loop].
  rewrite Hb, bind_lift_ok, classify_crop_loaded, Hc. unfold bind.
  by destruct (predict_loop _ _ _ _ _ _ _ _ _).
Qed.

Lemma predict_loop_cons_raise (m : Classifier) (np_img : ndarray)
    (names : gmap Z string) (imgsz topk : Z) (b : Box) (bs : list Box)
    (out : list Entry) (e : exn) :
  answer_of np cv2 m np_img imgsz topk b = Raise e ->
  predict_loop np cv2 (Some m) np_img names imgsz topk (b :: bs) out =
  (Raise e, box_calls cv2 np_img imgsz b).
Proof.
  unfold answer_of, box_calls.
  destruct (crop_of_box cv2 np_img b) as [crop|e'] eqn:Hb; cbn [obind].
  - intros He. cbn [predict_loop].
    by rewrite Hb, bind_lift_ok, classify_crop_loaded, He.
  - intros [= <-]. cbn [predict_loop]. by rewrite Hb.
Qed.

(** The loop stops at the first box whose enhancement or classification
    raises. *)
Lemma predict_loop_abort (m : Classifier) (np_img : ndarray)
    (names : gmap Z string) (imgsz topk : Z) (pre post : list Box) (b : Box)
    (e : exn) (out : list Entry) :
  Forall (fun b' => exists c, answer_of np cv2 m np_img imgsz topk b' = Ok c)
    pre ->
  answer_of np cv2 m np_img imgsz topk b = Raise e ->
  predict_loop np cv2 (Some m) np_img names imgsz topk (pre ++ b :: post) out
  = (Raise e, (pre ++ [b]) ≫= box_calls cv2 np_img imgsz).
Proof.
  intros Hpre He. revert out.
  induction Hpre as [|b' pre [c Hc] _ IH]; intros out; cbn [app].
  - rewrite bind_singleton. by apply predict_loop_cons_raise.
  - rewrite (predict_loop_cons_ok _ _ _ _ _ _ _ _ c Hc), IH.
    by rewrite bind_cons.
Qed.

(** The two ways the loop can end. *)
Lemma predict_loop_outcome (m : Classifier) (np_img : ndarray)
    (names : gmap Z string) (imgsz topk : Z) (bs : list Box)
    (out : list Entry) :
  (exists ds,
     predict_loop np cv2 (Some m) np_img names imgsz topk bs out =
     (Ok (out ++ ds), bs ≫= box_calls cv2 np_img imgsz) /\
     Forall2 (fun b d => det d = det_of_box names b /\
                         answer_of np cv2 m np_img imgsz topk b = Ok (cls d))
       bs ds) \/
  (exists pre b post e,
     bs = pre ++ b :: post /\
     answer_of np cv2 m np_img imgsz topk b = Raise e /\
     predict_loop np cv2 (Some m) np_img names imgsz topk bs out =
     (Raise e, (pre ++ [b]) ≫= box_calls cv2 np_img imgsz)).
Proof.
  revert out. induction bs as [|b bs IH]; intros out.
  - left. exists []. split; [|constructor].
    cbn [predict_loop]. unfold ret. by rewrite app_nil_r.
  - destruct (answer_of np cv2 m np_img imgsz topk b) as [c|e] eqn:Hb.
    + rewrite (predict_loop_cons_ok _ _ _ _ _ _ _ _ c Hb).
      destruct (IH (out ++ [{| det := det_of_box names b; cls := c |}]))
        as [(ds & -> & Hds)|(pre & b' & post & e & -> & Hb' & ->)].
      * left. exists ({| det := det_of_box names b; cls := c |} :: ds).
        split; [by rewrite <- app_assoc, bind_cons|]. by constructor.
      * right. exists (b :: pre), b', post, e.
        split; [done|]. split; [done|]. cbn [fst snd app].
        by rewrite bind_cons.
    + right. exists [], b, bs, e.
      split; [done|]. split; [done|]. cbn [app].
      rewrite bind_singleton. by apply predict_loop_cons_raise.
Qed.

(** [/predict] once both models are there and the upload has decoded. *)
Lemma predict_via_loop (dm : Detector) (cm : Classifier) (file : UploadFile)
    (pil_img : PILImage) (det_conf det_iou : Q)
    (cls_imgsz cls_topk max_dets : Z) :
  pil_open_rgb (file_bytes file) = Ok pil_img ->
  let det_res :=
    det_predict dm pil_img DEVICE 1024 det_conf det_iou max_dets in
  let loop :=
    predict_loop np cv2 (Some cm) (pil_to_np pil_img) (det_names det_res)
      cls_imgsz cls_topk (detected det_res) [] in
  predict np cv2 pil_open_rgb (Some dm) (Some cm) file det_conf det_iou
    cls_imgsz cls_topk max_dets =
  (match fst loop with
   | Ok ds => Ok (Success (filename file) (width pil_img, height pil_img) ds)
   | Raise e => Raise e
   end, snd loop).
Proof.
  intros Hopen det_res loop. subst loop.
  unfold predict, read_image, detected. rewrite Hopen, bind_lift_ok.
  fold det_res.
  destruct (boxes det_res) as [[|b bs]|]; try done.
  change (default [] (Some (b :: bs))) with (b :: bs).
  unfold bind, ret.
  destruct (predict_loop np cv2 (Some cm) _ _ _ _ (b :: bs) [])
    as [[ds|e] log]; cbn [fst snd]; by rewrite ?app_nil_r.
Qed.

End PredictAny.

(** X13.  Given a decoded upload and both models, if the enhancement or the
    classification of a detected box raises while every box before it went
    through, [/predict] raises the same exception and gives no response: the
    entries built so far are lost.  The classifier was called once for each
    box before that one, once for that one if its enhancement returned, and
    for no box after it. *)
Theorem predict_aborts_on_first_failure (np : NumpyArgsort)
    (cv2 : option CV2) (pil_open_rgb : list Byte.byte -> outcome PILImage)
    (dm : Detector) (cm : Classifier) (file : UploadFile) (pil_img : PILImage)
    (det_conf det_iou : Q) (cls_imgsz cls_topk max_dets : Z)
    (pre post : list Box) (b : Box) (e : exn) :
  pil_open_rgb (file_bytes file) = Ok pil_img ->
  let det_res :=
    det_predict dm pil_img DEVICE 1024 det_conf det_iou max_dets in
  let np_img := pil_to_np pil_img in
  detected det_res = pre ++ b :: post ->
  Forall (fun b' =>
            exists c, answer_of np cv2 cm np_img cls_imgsz cls_topk b' = Ok c)
    pre ->
  answer_of np cv2 cm np_img cls_imgsz cls_topk b = Raise e ->
  predict np cv2 pil_open_rgb (Some dm) (Some cm) file det_conf det_iou
    cls_imgsz cls_topk max_dets =
  (Raise e, (pre ++ [b]) ≫= box_calls cv2 np_img cls_imgsz) /\
  length (pre ≫= box_calls cv2 np_img cls_imgsz) = length pre /\
  (length (box_calls cv2 np_img cls_imgsz b) <= 1)%nat.
Proof.
  intros Hopen det_res np_img Hbs Hpre He.
  rewrite (predict_via_loop np cv2 pil_open_rgb dm cm file pil_img) by done.
  fold det_res np_img. rewrite Hbs.
  rewrite (predict_loop_abort np cv2 cm np_img _ _ _ pre post b e) by done.
  split; [done|]. split.
  - clear Hbs. induction Hpre as [|b' pre [c Hc] _ IH]; [done|].
    rewrite bind_cons, length_app, IH.
    unfold answer_of in Hc. unfold box_calls.
    by destruct (crop_of_box cv2 np_img b').
  - unfold box_calls. destruct (crop_of_box cv2 np_img b); simpl; lia.
Qed.

Lemma predict_aborts_on_first_failure_witness :
  predict stable_argsort (Some test_cv2) test_open
    (Some (test_detector (Some [small_box; edge_box; large_box])))
    (Some test_classifier) test_file 0.2 0.7 1024 3 50 =
  (Raise CvError,
   ([small_box] ++ [edge_box])
     ≫= box_calls (Some test_cv2) (pil_to_np test_image) 1024) /\
  length ([small_box]
            ≫= box_calls (Some test_cv2) (pil_to_np test_image) 1024)
    = 1%nat /\
  (length (box_calls (Some test_cv2) (pil_to_np test_image) 1024 edge_box)
     <= 1)%nat.
Proof.
  apply (predict_aborts_on_first_failure stable_argsort (Some test_cv2)
           test_open
           (test_detector (Some [small_box; edge_box; large_box]))
           test_classifier test_file test_image 0.2 0.7 1024 3 50
           [small_box] [large_box] edge_box CvError).
  - reflexivity.
  - reflexivity.
  - constructor; [|constructor]. eexists. reflexivity.
  - reflexivity.
Defined.

(** X14.  Given a decoded upload and both models, whenever [/predict]
    answers with a success, whatever the classifier's label table: the
    response echoes the upload's filename and the decoded image's width and
    height, it has one entry per detected box in the detector's order, entry
    [i] holds the ["det"] dict of box [i] and what [classify_crop] made of
    the classifier's answer on the enhanced crop of box [i], and the
    classifier was called exactly once per box, in that order. *)
Theorem predict_success_inv (np : NumpyArgsort)
    (cv2 : option CV2) (pil_open_rgb : list Byte.byte -> outcome PILImage)
    (dm : Detector) (cm : Classifier) (file : UploadFile) (pil_img : PILImage)
    (det_conf det_iou : Q) (cls_imgsz cls_topk max_dets : Z)
    (fname : option string) (size : Z * Z) (ds : list Entry)
    (log : list cls_call) :
  pil_open_rgb (file_bytes file) = Ok pil_img ->
  let det_res :=
    det_predict dm pil_img DEVICE 1024 det_conf det_iou max_dets in
  let np_img := pil_to_np pil_img in
  predict np cv2 pil_open_rgb (Some dm) (Some cm) file det_conf det_iou
    cls_imgsz cls_topk max_dets = (Ok (Success fname size ds), log) ->
  fname = filename file /\ size = (width pil_img, height pil_img) /\
  Forall2 (fun b d =>
             det d = det_of_box (det_names det_res) b /\
             exists crop,
               enhance_for_cls cv2 (head_square_crop np_img (xyxy b))
                 = Ok crop /\
               aggregate np (cls_predict cm crop DEVICE cls_imgsz) cls_topk
                 = Ok (cls d))
    (detected det_res) ds /\
  Forall2 (fun b c =>
             enhance_for_cls cv2 (head_square_crop np_img (xyxy b))
               = Ok (call_source c) /\
             call_device c = DEVICE /\ call_imgsz c = cls_imgsz)
    (detected det_res) log.
Proof.
  intros Hopen det_res np_img.
  rewrite (predict_via_loop np cv2 pil_open_rgb dm cm file pil_img) by done.
  fold det_res np_img.
  destruct (predict_loop_outcome np cv2 cm np_img (det_names det_res)
              cls_imgsz cls_topk (detected det_res) [])
    as [(ds' & -> & Hds)|(pre & b & post & e & _ & _ & ->)]; cbn [fst snd];
    [|done].
  intros [= <- <- <- <-]. split; [done|]. split; [done|]. split.
  - eapply Forall2_impl; [exact Hds|]. intros b d [Hd Ha].
    split; [done|]. unfold answer_of, crop_of_box in Ha.
    destruct (enhance_for_cls cv2 _) as [crop|]; [|done]. by exists crop.
  - clear -Hds. induction Hds as [|b d bs ds' [_ Ha] _ IH]; [constructor|].
    rewrite bind_cons. unfold answer_of in Ha. unfold box_calls at 1.
    unfold crop_of_box in *.
    destruct (enhance_for_cls cv2 _) as [crop|] eqn:Hc; [|done].
    cbn [app]. by constructor.
Qed.

Lemma predict_success_inv_witness :
  let img := pil_to_np test_image in
  let crops := [head_square_crop img (xyxy small_box);
                head_square_crop img (xyxy large_box)] in
  let ds :=
    zip_with (entry_of stable_argsort test_classifier {[ 0 := "screw" ]}
                1024 3) [small_box; large_box] crops in
  Some "screws.jpg" = filename test_file /\
  (200, 200) = (width test_image, height test_image) /\
  Forall2 (fun b d =>
             det d = det_of_box {[ 0 := "screw" ]} b /\
             exists crop,
               enhance_for_cls (Some test_cv2)
                 (head_square_crop img (xyxy b)) = Ok crop /\
               aggregate stable_argsort
                 (cls_predict test_classifier crop DEVICE 1024) 3
                 = Ok (cls d))
    [small_box; large_box] ds /\
  Forall2 (fun b c =>
             enhance_for_cls (Some test_cv2)
               (head_square_crop img (xyxy b)) = Ok (call_source c) /\
             call_device c = DEVICE /\ call_imgsz c = 1024)
    [small_box; large_box] (call_of 1024 <$> crops).
Proof.
  refine (predict_success_inv stable_argsort (Some test_cv2) test_open
            (test_detector (Some [small_box; large_box])) test_classifier
            test_file test_image 0.2 0.7 1024 3 50 _ _ _ _ _ _).
  - reflexivity.
  - reflexivity.
Defined.

(** X20.  With OpenCV present, given a decoded upload and both models, if
    the head crop of a detected box has no pixel while every box before it
    went through, [/predict] raises [cv2.error] at that box: no response is
    produced, and the classifier was called once for each earlier box and
    neither for that box nor for a later one. *)
Theorem predict_raises_on_empty_crop (np : NumpyArgsort) (cv : CV2)
    (pil_open_rgb : list Byte.byte -> outcome PILImage)
    (dm : Detector) (cm : Classifier) (file : UploadFile) (pil_img : PILImage)
    (det_conf det_iou : Q) (cls_imgsz cls_topk max_dets : Z)
    (pre post : list Box) (b : Box) :
  pil_open_rgb (file_bytes file) = Ok pil_img ->
  let det_res :=
    det_predict dm pil_img DEVICE 1024 det_conf det_iou max_dets in
  let np_img := pil_to_np pil_img in
  detected det_res = pre ++ b :: post ->
  Forall (fun b' =>
            exists c,
              answer_of np (Some cv) cm np_img cls_imgsz cls_topk b' = Ok c)
    pre ->
  nd_empty (head_square_crop np_img (xyxy b)) = true ->
  exists log,
    predict np (Some cv) pil_open_rgb (Some dm) (Some cm) file det_conf
      det_iou cls_imgsz cls_topk max_dets = (Raise CvError, log) /\
    length log = length pre.
Proof.
  intros Hopen det_res np_img Hbs Hpre Hempty.
  assert (crop_of_box (Some cv) np_img b = Raise CvError) as Hb
    by (by apply enhance_empty).
  rewrite (predict_via_loop np (Some cv) pil_open_rgb dm cm file pil_img)
    by done.
  fold det_res np_img. rewrite Hbs.
  rewrite (predict_loop_abort np (Some cv) cm np_img _ _ _ pre post b
             CvError _ Hpre) by (unfold answer_of; by rewrite Hb).
  eexists. split; [done|]. cbn [snd].
  rewrite bind_app, bind_singleton, length_app.
  unfold box_calls at 2. rewrite Hb. cbn [length].
  clear Hbs. induction Hpre as [|b' pre [c Hc] _ IH]; [done|].
  rewrite bind_cons, length_app. cbn [length].
  unfold answer_of in Hc. unfold box_calls at 1.
  destruct (crop_of_box (Some cv) np_img b'); [cbn [length]; lia|done].
Qed.

Lemma predict_raises_on_empty_crop_witness :
  exists log,
    predict stable_argsort (Some test_cv2) test_open
      (Some (test_detector (Some [large_box; edge_box; small_box])))
      (Some test_classifier) test_file 0.2 0.7 1024 3 50
    = (Raise CvError, log) /\
    length log = 1%nat.
Proof.
  apply (predict_raises_on_empty_crop stable_argsort test_cv2 test_open
           (test_detector (Some [large_box; edge_box; small_box]))
           test_classifier test_file test_image 0.2 0.7 1024 3 50
           [large_box] [small_box] edge_box).
  - reflexivity.
  - reflexivity.
  - constructor; [|constructor]. eexists. reflexivity.
  - reflexivity.
Defined.

(** ** Empty crops *)

(** Whichever branch is taken, the crop is the slice of the image by the
    output of [clip_box]. *)
Lemma head_square_crop_clip_slice (img : ndarray) (box : Q * Q * Q * Q) :
  exists x1 y1 x2 y2,
    head_square_crop img box =
    nd_slice img
      (fst (clip_axis (py_int y1) (py_int y2) (shape_h img)))
      (snd (clip_axis (py_int y1) (py_int y2) (shape_h img)))
      (fst (clip_axis (py_int x1) (py_int x2) (shape_w img)))
      (snd (clip_axis (py_int x1) (py_int x2) (shape_w img))).
Proof.
  destruct box as [[[x1 y1] x2] y2]. unfold head_square_crop.
  destruct (clip_box x1 y1 x2 y2 (shape_w img) (shape_h img))
    as [[[cx1 cy1] cx2] cy2].
  destruct (Z.max (cx2 - cx1) (cy2 - cy1) <? 2).
  - exists (py_num cx1), (py_num cy1), (py_num cx2), (py_num cy2).
    unfold crop_rgb. by rewrite clip_box_by_axis.
  - destruct (head_square cx1 cy1 cx2 cy2 (Z.max (cx2 - cx1) (cy2 - cy1)))
      as [[[nx1 ny1] nx2] ny2].
    exists (py_num nx1), (py_num ny1), (py_num nx2), (py_num ny2).
    by rewrite clip_box_by_axis.
Qed.

(** X17.  On an image that is one pixel wide every crop has width 0, and
    on an image that is one pixel high every crop has height 0, whatever the
    box. *)
Theorem head_square_crop_thin_image (img : ndarray) (box : Q * Q * Q * Q) :
  1 <= shape_w img -> 1 <= shape_h img ->
  (shape_w img = 1 -> shape_w (head_square_crop img box) = 0) /\
  (shape_h img = 1 -> shape_h (head_square_crop img box) = 0).
Proof.
  intros Hw Hh.
  destruct (head_square_crop_clip_slice img box) as (x1 & y1 & x2 & y2 & ->).
  pose proof (clip_axis_bounds (py_int x1) (py_int x2) (shape_w img) Hw).
  pose proof (clip_axis_bounds (py_int y1) (py_int y2) (shape_h img) Hh).
  rewrite nd_slice_inside by lia. cbn [shape_w shape_h]. lia.
Qed.

Lemma head_square_crop_thin_image_witness :
  (shape_w (blank_image 1 300) = 1 ->
   shape_w (head_square_crop (blank_image 1 300) (0, 10, 1, 200)%Q) = 0) /\
  (shape_h (blank_image 1 300) = 1 ->
   shape_h (head_square_crop (blank_image 1 300) (0, 10, 1, 200)%Q) = 0).
Proof.
  apply (head_square_crop_thin_image (blank_image 1 300) (0, 10, 1, 200)%Q);
    simpl; lia.
Defined.

(** X18.  On an image of width and height at least 2, the crop of a box is
    empty exactly when the clipped box has no side of 2 or more and a side
    of 0, that is when the box is clamped onto the last column or the last
    row and is at most one pixel long the other way. *)
Theorem head_square_crop_empty_iff (img : ndarray) (x1 y1 x2 y2 : Q) :
  2 <= shape_w img -> 2 <= shape_h img ->
  let '(cx1, cy1, cx2, cy2) :=
    clip_box x1 y1 x2 y2 (shape_w img) (shape_h img) in
  let crop := head_square_crop img (x1, y1, x2, y2) in
  (shape_w crop = 0 \/ shape_h crop = 0) <->
  Z.max (cx2 - cx1) (cy2 - cy1) < 2 /\ (cx1 = cx2 \/ cy1 = cy2).
Proof.
  intros Hw Hh.
  pose proof (head_square_crop_by_axis img x1 y1 x2 y2
                ltac:(lia) ltac:(lia)) as H.
  pose proof (clip_box_bounds x1 y1 x2 y2 (shape_w img) (shape_h img)
                ltac:(lia) ltac:(lia)) as Hin.
  unfold head_square_crop in *.
  destruct (clip_box x1 y1 x2 y2 (shape_w img) (shape_h img))
    as [[[cx1 cy1] cx2] cy2] eqn:E.
  destruct Hin as [(Hx1 & Hx & Hx2) (Hy1 & Hy & Hy2)].
  cbv zeta in *.
  destruct (Z.ltb_spec (Z.max (cx2 - cx1) (cy2 - cy1)) 2) as [Hs|Hs].
  - clear H. unfold crop_rgb.
    rewrite (clip_box_reclip _ _ _ _ _ _ _ _ _ _ E).
    rewrite nd_slice_inside by lia. cbn [shape_w shape_h]. lia.
  - destruct (H Hs) as ([Hcx Hcxw] & [Hcy Hcyh] & Hs2 & ->).
    set (cx := (cx1 + cx2) / 2) in *.
    set (cy := cy1 + 9 * (cy2 - cy1) / 20) in *.
    set (s2 := Z.max (cx2 - cx1) (cy2 - cy1)
               + 2 * (Z.max (cx2 - cx1) (cy2 - cy1) / 20)) in *.
    pose proof (clip_axis_square_extent cx s2 (shape_w img)
                  ltac:(lia) ltac:(lia) ltac:(lia) ltac:(lia)) as Hx'.
    pose proof (clip_axis_square_extent cy s2 (shape_h img)
                  ltac:(lia) ltac:(lia) ltac:(lia) ltac:(lia)) as Hy'.
    rewrite nd_slice_inside by lia. cbn [shape_w shape_h]. lia.
Qed.

Lemma head_square_crop_empty_iff_witness :
  let crop := head_square_crop (blank_image 200 200) (199, 50, 199, 50)%Q in
  (shape_w crop = 0 \/ shape_h crop = 0) <->
  Z.max (199 - 199) (51 - 50) < 2 /\ (199 = 199 \/ 50 = 51).
Proof.
  apply (head_square_crop_empty_iff (blank_image 200 200) 199 50 199 50);
    simpl; lia.
Defined.

(** ** What the classifier is called on *)

(** X19.  Given a decoded upload of width and height at least 1 and both
    models, every call [/predict] makes to the classifier is for a detected
    box: with device ["mps"], with the request's [cls_imgsz], and on the
    enhanced head crop of that box, which is a view of the uploaded image. *)
Theorem predict_calls_on_head_crops (np : NumpyArgsort)
    (cv2 : option CV2) (pil_open_rgb : list Byte.byte -> outcome PILImage)
    (dm : Detector) (cm : Classifier) (file : UploadFile) (pil_img : PILImage)
    (det_conf det_iou : Q) (cls_imgsz cls_topk max_dets : Z)
    (c : cls_call) :
  pil_open_rgb (file_bytes file) = Ok pil_img ->
  1 <= width pil_img -> 1 <= height pil_img ->
  let det_res :=
    det_predict dm pil_img DEVICE 1024 det_conf det_iou max_dets in
  let np_img := pil_to_np pil_img in
  c ∈ snd (predict np cv2 pil_open_rgb (Some dm) (Some cm) file det_conf
             det_iou cls_imgsz cls_topk max_dets) ->
  call_device c = "mps" /\ call_imgsz c = cls_imgsz /\
  exists b r0 c0,
    b ∈ detected det_res /\
    enhance_for_cls cv2 (head_square_crop np_img (xyxy b))
      = Ok (call_source c) /\
    window_at np_img (head_square_crop np_img (xyxy b)) r0 c0.
Proof.
  intros Hopen Hw Hh det_res np_img.
  rewrite (predict_via_loop np cv2 pil_open_rgb dm cm file pil_img) by done.
  fold det_res np_img. cbn [snd].
  assert (forall bs : list Box,
            c ∈ bs ≫= box_calls cv2 np_img cls_imgsz ->
            (forall b, b ∈ bs -> b ∈ detected det_res) ->
            call_device c = "mps" /\ call_imgsz c = cls_imgsz /\
            exists b r0 c0,
              b ∈ detected det_res /\
              enhance_for_cls cv2 (head_square_crop np_img (xyxy b))
                = Ok (call_source c) /\
              window_at np_img (head_square_crop np_img (xyxy b)) r0 c0)
    as Hcalls.
  { intros bs Hc Hbs. apply list_elem_of_bind in Hc as (b & Hc & Hb).
    unfold box_calls, crop_of_box in Hc.
    destruct (enhance_for_cls cv2 _) as [crop|] eqn:He;
      [|by apply elem_of_nil in Hc].
    apply list_elem_of_singleton in Hc as ->.
    split; [done|]. split; [done|].
    destruct (head_square_crop_view np_img (xyxy b) Hw Hh) as (r0 & c0 & Hv).
    exists b, r0, c0. split; [by apply Hbs|]. by split. }
  destruct (predict_loop_outcome np cv2 cm np_img (det_names det_res)
              cls_imgsz cls_topk (detected det_res) [])
    as [(ds & -> & _)|(pre & b & post & e & Hbs & _ & ->)]; cbn [snd];
    intros Hc.
  - by apply (Hcalls (detected det_res)).
  - apply (Hcalls (pre ++ [b])); [done|].
    intros b' Hb'. rewrite Hbs. rewrite elem_of_app in Hb'.
    rewrite elem_of_app.
    destruct Hb' as [|Hb']; [by left|right].
    apply list_elem_of_singleton in Hb' as ->. by left.
Qed.

Lemma predict_calls_on_head_crops_witness :
  let c := call_of 1024
             (head_square_crop (pil_to_np test_image) (xyxy large_box)) in
  call_device c = "mps" /\ call_imgsz c = 1024 /\
  exists b r0 c0,
    b ∈ [small_box; large_box] /\
    enhance_for_cls (Some test_cv2)
      (head_square_crop (pil_to_np test_image) (xyxy b))
      = Ok (call_source c) /\
    window_at (pil_to_np test_image)
      (head_square_crop (pil_to_np test_image) (xyxy b)) r0 c0.
Proof.
  apply (predict_calls_on_head_crops stable_argsort (Some test_cv2) test_open
           (test_detector (Some [small_box; large_box])) test_classifier
           test_file test_image 0.2 0.7 1024 3 50).
  - reflexivity.
  - simpl. lia.
  - simpl. lia.
  - right. left.
Defined.

(** ** Ties *)

Lemma StronglySorted_lookup_lt {A} (R : A -> A -> Prop) (l : list A)
    (a b : nat) (x y : A) :
  StronglySorted R l -> l !! a = Some x -> l !! b = Some y -> (a < b)%nat ->
  R x y.
Proof.
  intros Hs. revert a b.
  induction Hs as [|z l Hl IH Hz]; intros a b Ha Hb Hab; [done|].
  destruct b as [|b]; [lia|]. destruct a as [|a]; simpl in *.
  - injection Ha as <-. rewrite Forall_forall in Hz.
    apply Hz. by eapply list_elem_of_lookup_2.
  - apply (IH a b); [done|done|lia].
Qed.

(** X22.  Whenever [np.argsort] keeps the equal elements of [-p] in index
    order, ties between classes go to the lowest index: a class is selected
    only if every lower class of equal probability is, and it comes after
    them in [topk].  The code does not ask [np.argsort] for a stable sort, so
    this rests on the sort numpy happens to run. *)
Theorem stable_sort_ties_lowest_first (np : NumpyArgsort) (p : list Q)
    (k : Z) :
  stable_on np (Qopp <$> p) -> ties_lowest_first (top_indices np p k) p.
Proof.
  intros Hst i j vi vj Hij Hi Hj Heq Hin. unfold top_indices in *.
  destruct (py_take_sublist k (argsort np (Qopp <$> p))) as [n Hn].
  rewrite Hn in *. apply elem_of_take in Hin as (b & Hb & Hbn).
  assert (i ∈ argsort np (Qopp <$> p)) as Hiin.
  { apply argsort_elem_of. rewrite length_fmap. by eapply lookup_lt_Some. }
  apply list_elem_of_lookup_1 in Hiin as [a Ha].
  assert (a < b)%nat as Hab.
  { destruct (lt_eq_lt_dec a b) as [[Hlt| ->]|Hlt]; [done| |].
    - rewrite Ha in Hb. injection Hb. lia.
    - pose proof (StronglySorted_lookup_lt _ _ b a j i Hst Hb Ha Hlt
                    (- vj)%Q (- vi)%Q) as H.
      rewrite !list_lookup_fmap, Hi, Hj in H.
      specialize (H eq_refl eq_refl). rewrite Heq in H.
      specialize (H (Qeq_refl _)). lia. }
  exists a, b. rewrite !lookup_take_lt by lia. done.
Qed.

Lemma stable_sort_ties_lowest_first_witness :
  ties_lowest_first (top_indices stable_argsort [0.2; 0.5; 0.5]%Q 1)
    [0.2; 0.5; 0.5]%Q.
Proof.
  apply (stable_sort_ties_lowest_first stable_argsort [0.2; 0.5; 0.5]%Q 1).
  unfold stable_on.
  change (argsort stable_argsort (Qopp <$> [0.2; 0.5; 0.5]%Q))
    with [1%nat; 2%nat; 0%nat].
  repeat constructor; intros x y [= <-] [= <-] Hxy;
    first [lia | vm_compute in Hxy; discriminate].
Defined.
